(** * Student Management System: registry, text codec and course report

    A shallow embedding of [src/main.cpp]: the [Student] and [Course]
    records, the [StudentManagement] registry with its add / remove / enroll
    operations, the CSV export and load routines, the keyword search and the
    course report, followed by the properties of the specification. *)

From Stdlib Require Import Ascii.
From stdpp Require Import gmap strings list fin_maps.

(** ** Entity records *)

(** The class hierarchy [Undergraduate] / [Postgraduate] differs only in the
    label returned by the virtual [getType]. *)
Inductive StudentType : Type :=
  | Undergraduate
  | Postgraduate.

Definition getType (k : StudentType) : string :=
  match k with
  | Undergraduate => "Undergraduate"
  | Postgraduate => "Postgraduate"
  end.

Record Student : Type := mkStudent {
  name : string;
  studentID : string;
  kind : StudentType;
  enrolledCourses : list string
}.

Record Course : Type := mkCourse {
  courseName : string;
  courseCode : string;
  enrolledStudentIDs : list string
}.

#[global] Instance StudentType_eq_dec : EqDecision StudentType.
Proof. solve_decision. Defined.
#[global] Instance Student_eq_dec : EqDecision Student.
Proof. solve_decision. Defined.
#[global] Instance Course_eq_dec : EqDecision Course.
Proof. solve_decision. Defined.

(** [find(v.begin(), v.end(), x) == v.end()] followed by [push_back]. *)
Definition push_back_unique (x : string) (v : list string) : list string :=
  if bool_decide (x ∈ v) then v else v ++ [x].

(** [v.erase(remove(v.begin(), v.end(), x), v.end())]. *)
Definition erase_remove (x : string) (v : list string) : list string :=
  filter (λ y, y ≠ x) v.

Definition Student_addCourse (code : string) (s : Student) : Student :=
  mkStudent (name s) (studentID s) (kind s)
            (push_back_unique code (enrolledCourses s)).

Definition Student_removeCourse (code : string) (s : Student) : Student :=
  mkStudent (name s) (studentID s) (kind s)
            (erase_remove code (enrolledCourses s)).

Definition Course_addStudent (id : string) (c : Course) : Course :=
  mkCourse (courseName c) (courseCode c)
           (push_back_unique id (enrolledStudentIDs c)).

Definition Course_removeStudent (id : string) (c : Course) : Course :=
  mkCourse (courseName c) (courseCode c)
           (erase_remove id (enrolledStudentIDs c)).

(** ** The registry *)

Record StudentManagement : Type := mkSM {
  students : list Student;
  courses : list Course
}.

Definition emptySM : StudentManagement := mkSM [] [].

(** What an operation reports on the console, named after the error taxonomy
    of the specification:
    - [DuplicateKey]: "... already exists."
    - [NotFound]: "... not found."
    - [InvalidArgument]: "Unknown student type. ..."
    - [AlreadyEnrolled]: "Student ... is already enrolled in course ..."
    - [IOFailure]: "Error opening file ..."
    - [Success]: the confirmation line of the operation. *)
Inductive Outcome : Type :=
  | Success
  | DuplicateKey
  | NotFound
  | InvalidArgument
  | AlreadyEnrolled
  | IOFailure.

(** The linear scan shared by [findStudentIndex] and [findCourseIndex];
    [None] is the sentinel [-1]. *)
Fixpoint find_index {A : Type} (p : A → bool) (v : list A) : option nat :=
  match v with
  | [] => None
  | x :: rest => if p x then Some 0 else S <$> find_index p rest
  end.

(** The test of the scan: [v[i].key() == k]. *)
Definition has_key {A : Type} (key : A → string) (k : string) (a : A) : bool :=
  bool_decide (key a = k).

Definition findStudentIndex (sm : StudentManagement) (id : string) : option nat :=
  find_index (has_key studentID id) (students sm).

Definition findCourseIndex (sm : StudentManagement) (code : string) : option nat :=
  find_index (has_key courseCode code) (courses sm).

Definition addStudent (nm id type : string) (sm : StudentManagement)
  : Outcome * StudentManagement :=
  match findStudentIndex sm id with
  | Some _ => (DuplicateKey, sm)
  | None =>
      if bool_decide (type = "Undergraduate") then
        (Success, mkSM (students sm ++ [mkStudent nm id Undergraduate []]) (courses sm))
      else if bool_decide (type = "Postgraduate") then
        (Success, mkSM (students sm ++ [mkStudent nm id Postgraduate []]) (courses sm))
      else (InvalidArgument, sm)
  end.

Definition removeStudent (id : string) (sm : StudentManagement)
  : Outcome * StudentManagement :=
  match findStudentIndex sm id with
  | None => (NotFound, sm)
  | Some idx =>
      (Success, mkSM (delete idx (students sm))
                     (Course_removeStudent id <$> courses sm))
  end.

Definition addCourse (cname code : string) (sm : StudentManagement)
  : Outcome * StudentManagement :=
  match findCourseIndex sm code with
  | Some _ => (DuplicateKey, sm)
  | None => (Success, mkSM (students sm) (courses sm ++ [mkCourse cname code []]))
  end.

Definition removeCourse (code : string) (sm : StudentManagement)
  : Outcome * StudentManagement :=
  match findCourseIndex sm code with
  | None => (NotFound, sm)
  | Some idx =>
      (Success, mkSM (Student_removeCourse code <$> students sm)
                     (delete idx (courses sm)))
  end.

Definition enrollStudentInCourse (id code : string) (sm : StudentManagement)
  : Outcome * StudentManagement :=
  match findStudentIndex sm id, findCourseIndex sm code with
  | None, _ => (NotFound, sm)
  | Some _, None => (NotFound, sm)
  | Some sIdx, Some cIdx =>
      match students sm !! sIdx with
      | None => (NotFound, sm)
      | Some s =>
          if bool_decide (code ∈ enrolledCourses s) then (AlreadyEnrolled, sm)
          else (Success, mkSM (alter (Student_addCourse code) sIdx (students sm))
                              (alter (Course_addStudent id) cIdx (courses sm)))
      end
  end.

Definition removeStudentFromCourse (id code : string) (sm : StudentManagement)
  : Outcome * StudentManagement :=
  match findStudentIndex sm id, findCourseIndex sm code with
  | Some sIdx, Some cIdx =>
      (Success, mkSM (alter (Student_removeCourse code) sIdx (students sm))
                     (alter (Course_removeStudent id) cIdx (courses sm)))
  | _, _ => (NotFound, sm)
  end.

(** ** Streams: [std::getline] and [std::string::find] *)

Definition nl : ascii := "010"%char.
Definition comma : ascii := ","%char.
Definition semicolon : ascii := ";"%char.
Definition dquote : ascii := "034"%char.
Definition endl : string := String nl "".

(** Characters up to the first delimiter, and what follows it (the delimiter
    itself is consumed and dropped). *)
Fixpoint take_until (d : ascii) (s : string) : string * string :=
  match s with
  | EmptyString => (EmptyString, EmptyString)
  | String c rest =>
      if Ascii.eqb c d then (EmptyString, rest)
      else let '(field, rest') := take_until d rest in (String c field, rest')
  end.

(** [getline(stream, field, d)] on a stream whose unread content is [s]:
    [None] when the call fails (nothing left to extract), otherwise the field
    and the unread remainder. *)
Definition getline (d : ascii) (s : string) : option (string * string) :=
  match s with
  | EmptyString => None
  | _ => Some (take_until d s)
  end.

(** A [getline] whose result is not tested: on failure the (freshly
    constructed) target string stays empty. *)
Definition getline_field (d : ascii) (s : string) : string * string :=
  default (EmptyString, EmptyString) (getline d s).

Fixpoint getline_loop (fuel : nat) (d : ascii) (s : string) : list string :=
  match fuel with
  | O => []
  | S fuel' =>
      match getline d s with
      | None => []
      | Some (field, rest) => field :: getline_loop fuel' d rest
      end
  end.

(** The successive values read by [while (getline(stream, x, d))]. Every
    successful call consumes at least one character, so the length of the
    content bounds the number of iterations. *)
Definition getline_all (d : ascii) (s : string) : list string :=
  getline_loop (String.length s) d s.

(** [s.find(kw)]: the first position at which [kw] occurs in [s]; [None] is
    [string::npos]. *)
Fixpoint string_find (s kw : string) : option nat :=
  if String.prefix kw s then Some 0
  else match s with
       | EmptyString => None
       | String _ rest => S <$> string_find rest kw
       end.

(** [s.find(kw) != string::npos] *)
Definition contains (s kw : string) : bool :=
  bool_decide (is_Some (string_find s kw)).

(** ** Files *)

Record FileSystem : Type := mkFS {
  files : gmap string string;
  unwritable : gset string
}.

(** [ofstream file(path); if (!file) ...; file << content; file.close()] *)
Definition write_file (path content : string) (fs : FileSystem)
  : Outcome * FileSystem :=
  if bool_decide (path ∈ unwritable fs) then (IOFailure, fs)
  else (Success, mkFS (<[path := content]> (files fs)) (unwritable fs)).

(** ** Data export *)

(** The loop writing the elements of a list with [;] between them. *)
Fixpoint join_semicolon (v : list string) : string :=
  match v with
  | [] => ""
  | x :: rest =>
      match rest with
      | [] => x
      | _ :: _ => x +:+ ";" +:+ join_semicolon rest
      end
  end.

Definition student_row (s : Student) : string :=
  studentID s +:+ "," +:+ name s +:+ "," +:+ getType (kind s) +:+ ","
    +:+ join_semicolon (enrolledCourses s) +:+ endl.

Definition course_row (c : Course) : string :=
  courseCode c +:+ "," +:+ courseName c +:+ ","
    +:+ join_semicolon (enrolledStudentIDs c) +:+ endl.

Definition students_header : string := "StudentID,Name,Type,EnrolledCourses".
Definition courses_header : string := "CourseCode,CourseName,EnrolledStudents".
Definition students_path : string := "Students/students.csv".
Definition courses_path : string := "Courses/courses.csv".

Definition students_csv (sm : StudentManagement) : string :=
  students_header +:+ endl
    +:+ foldr (λ s out, student_row s +:+ out) "" (students sm).

Definition courses_csv (sm : StudentManagement) : string :=
  courses_header +:+ endl
    +:+ foldr (λ c out, course_row c +:+ out) "" (courses sm).

Definition exportStudentsToCSV (sm : StudentManagement) (fs : FileSystem)
  : Outcome * FileSystem :=
  write_file students_path (students_csv sm) fs.

Definition exportCoursesToCSV (sm : StudentManagement) (fs : FileSystem)
  : Outcome * FileSystem :=
  write_file courses_path (courses_csv sm) fs.

(** Menu entries 12 and 0: both exports, one after the other. *)
Definition saveData (sm : StudentManagement) (fs : FileSystem) : FileSystem :=
  (exportCoursesToCSV sm (exportStudentsToCSV sm fs).2).2.

(** ** Data loading *)

Definition load_student_code (id : string) (sm : StudentManagement)
    (code : string) : StudentManagement :=
  match findStudentIndex sm id with
  | Some sIdx => mkSM (alter (Student_addCourse code) sIdx (students sm)) (courses sm)
  | None => sm
  end.

Definition load_student_line (sm : StudentManagement) (line : string)
  : StudentManagement :=
  if bool_decide (line = "") then sm
  else
    let '(id, r1) := getline_field comma line in
    let '(nm, r2) := getline_field comma r1 in
    let '(type, r3) := getline_field comma r2 in
    let '(coursesStr, _) := getline_field nl r3 in
    let sm1 := (addStudent nm id type sm).2 in
    if bool_decide (coursesStr = "") then sm1
    else foldl (load_student_code id) sm1 (getline_all semicolon coursesStr).

Definition loadStudentsFromCSV (fs : FileSystem) (sm : StudentManagement)
  : StudentManagement :=
  match files fs !! students_path with
  | None => sm
  | Some content => foldl load_student_line sm (tail (getline_all nl content))
  end.

Definition load_course_id (code : string) (sm : StudentManagement)
    (id : string) : StudentManagement :=
  match findCourseIndex sm code with
  | Some cIdx => mkSM (students sm) (alter (Course_addStudent id) cIdx (courses sm))
  | None => sm
  end.

Definition load_course_line (sm : StudentManagement) (line : string)
  : StudentManagement :=
  if bool_decide (line = "") then sm
  else
    let '(code, r1) := getline_field comma line in
    let '(cname, r2) := getline_field comma r1 in
    let '(studentsStr, _) := getline_field nl r2 in
    let sm1 := (addCourse cname code sm).2 in
    if bool_decide (studentsStr = "") then sm1
    else foldl (load_course_id code) sm1 (getline_all semicolon studentsStr).

Definition loadCoursesFromCSV (fs : FileSystem) (sm : StudentManagement)
  : StudentManagement :=
  match files fs !! courses_path with
  | None => sm
  | Some content => foldl load_course_line sm (tail (getline_all nl content))
  end.

Definition loadData (fs : FileSystem) (sm : StudentManagement)
  : StudentManagement :=
  loadCoursesFromCSV fs (loadStudentsFromCSV fs sm).

(** ** Search *)

Definition student_line (s : Student) : string :=
  "Name: " +:+ name s +:+ ", ID: " +:+ studentID s
    +:+ ", Type: " +:+ getType (kind s) +:+ endl.

(** The inner loop over the enrolled courses, left at the first hit. The
    state is the console text so far and the [found] flag. *)
Fixpoint search_courses (kw : string) (s : Student) (codes : list string)
    (st : string * bool) : string * bool :=
  match codes with
  | [] => st
  | code :: rest =>
      if contains code kw then (st.1 +:+ student_line s, true)
      else search_courses kw s rest st
  end.

Definition search_step (kw : string) (st : string * bool) (s : Student)
  : string * bool :=
  if contains (name s) kw || contains (studentID s) kw
  then (st.1 +:+ student_line s, true)
  else search_courses kw s (enrolledCourses s) st.

Definition search_banner (kw : string) : string :=
  endl +:+ "--- Search Results for " +:+ String dquote kw
    +:+ String dquote " ---" +:+ endl.

Definition no_match_line : string := "No matching student found." +:+ endl.

(** The text [searchStudent] prints. *)
Definition searchStudent (kw : string) (sm : StudentManagement) : string :=
  let '(out, found) := foldl (search_step kw) (search_banner kw, false) (students sm) in
  if found then out else out +:+ no_match_line.

(** ** Course report *)

Definition report_header : string := "StudentID,Name,Type".

Definition report_line (s : Student) : string :=
  studentID s +:+ "," +:+ name s +:+ "," +:+ getType (kind s).

Definition report_path (code : string) : string :=
  "Reports/CourseReports" +:+ "/" +:+ code +:+ ".csv".

Definition report_step (sm : StudentManagement) (out : string) (id : string)
  : string :=
  match findStudentIndex sm id with
  | Some sIdx =>
      match students sm !! sIdx with
      | Some s => out +:+ report_line s +:+ endl
      | None => out
      end
  | None => out
  end.

(** The report file is opened (and so truncated) before the roster is
    walked; its final content is the header followed by the lines. *)
Definition generateReportForCourse (code : string) (sm : StudentManagement)
    (fs : FileSystem) : Outcome * FileSystem :=
  match findCourseIndex sm code with
  | None => (NotFound, fs)
  | Some cIdx =>
      match courses sm !! cIdx with
      | None => (NotFound, fs)
      | Some c =>
          write_file (report_path code)
            (foldl (report_step sm) (report_header +:+ endl) (enrolledStudentIDs c))
            fs
      end
  end.

(** ** Vocabulary of the specification *)

(** [students[findStudentIndex(id)]] and [courses[findCourseIndex(code)]]:
    the record an operation works on. *)
Definition getStudent (sm : StudentManagement) (id : string) : option Student :=
  findStudentIndex sm id ≫= λ sIdx, students sm !! sIdx.

Definition getCourse (sm : StudentManagement) (code : string) : option Course :=
  findCourseIndex sm code ≫= λ cIdx, courses sm !! cIdx.

(** The mutating operations of the registry, as the menu issues them. *)
Inductive Op : Type :=
  | OpAddStudent (nm id type : string)
  | OpRemoveStudent (id : string)
  | OpAddCourse (cname code : string)
  | OpRemoveCourse (code : string)
  | OpEnroll (id code : string)
  | OpUnenroll (id code : string).

Definition step (sm : StudentManagement) (op : Op) : StudentManagement :=
  match op with
  | OpAddStudent nm id type => (addStudent nm id type sm).2
  | OpRemoveStudent id => (removeStudent id sm).2
  | OpAddCourse cname code => (addCourse cname code sm).2
  | OpRemoveCourse code => (removeCourse code sm).2
  | OpEnroll id code => (enrollStudentInCourse id code sm).2
  | OpUnenroll id code => (removeStudentFromCourse id code sm).2
  end.

(** The registry reached from the empty one by a sequence of operations. *)
Definition run (ops : list Op) : StudentManagement := foldl step emptySM ops.

Definition unique_keys (sm : StudentManagement) : Prop :=
  NoDup (studentID <$> students sm) ∧ NoDup (courseCode <$> courses sm).

(** Every transcript entry names a course of the registry whose roster
    holds the student, every roster entry names a student of the registry,
    and for each student and course of the registry the two sides of the
    link agree. *)
Definition referential_symmetry (sm : StudentManagement) : Prop :=
  (∀ s code, s ∈ students sm → code ∈ enrolledCourses s →
     ∃ c, c ∈ courses sm ∧ courseCode c = code) ∧
  (∀ c id, c ∈ courses sm → id ∈ enrolledStudentIDs c →
     ∃ s, s ∈ students sm ∧ studentID s = id) ∧
  (∀ s c, s ∈ students sm → c ∈ courses sm →
     (courseCode c ∈ enrolledCourses s ↔ studentID s ∈ enrolledStudentIDs c)).

Definition lists_nodup (sm : StudentManagement) : Prop :=
  (∀ s, s ∈ students sm → NoDup (enrolledCourses s)) ∧
  (∀ c, c ∈ courses sm → NoDup (enrolledStudentIDs c)).

Definition consistent (sm : StudentManagement) : Prop :=
  unique_keys sm ∧ referential_symmetry sm ∧ lists_nodup sm.

(** [kw] occurs in [s]. *)
Definition is_substring (kw s : string) : Prop :=
  ∃ pre post, s = pre +:+ kw +:+ post.

(** The students a keyword search is about: the keyword occurs in the
    name, in the id or in one of the enrolled course codes. *)
Definition keyword_matches (kw : string) (s : Student) : Prop :=
  is_substring kw (name s) ∨ is_substring kw (studentID s) ∨
  ∃ code, code ∈ enrolledCourses s ∧ is_substring kw code.

Definition keyword_matchesb (kw : string) (s : Student) : bool :=
  contains (name s) kw || contains (studentID s) kw
  || existsb (λ code, contains code kw) (enrolledCourses s).

(** The text made of the given pieces, one after the other. *)
Definition concat_strings (pieces : list string) : string :=
  foldr String.append "" pieces.

(** What the cascade of [removeStudent] does to a course: [c'] is [c]
    after it. *)
Definition roster_purged (id : string) (c c' : Course) : Prop :=
  courseName c' = courseName c ∧ courseCode c' = courseCode c ∧
  enrolledStudentIDs c' = filter (λ x, x ≠ id) (enrolledStudentIDs c) ∧
  (id ∉ enrolledStudentIDs c') ∧
  (∀ x, x ≠ id → (x ∈ enrolledStudentIDs c' ↔ x ∈ enrolledStudentIDs c)) ∧
  (id ∉ enrolledStudentIDs c → c' = c).

(** What the cascade of [removeCourse] does to a student. *)
Definition transcript_purged (code : string) (s s' : Student) : Prop :=
  name s' = name s ∧ studentID s' = studentID s ∧ kind s' = kind s ∧
  enrolledCourses s' = filter (λ x, x ≠ code) (enrolledCourses s) ∧
  (code ∉ enrolledCourses s') ∧
  (∀ x, x ≠ code → (x ∈ enrolledCourses s' ↔ x ∈ enrolledCourses s)) ∧
  (code ∉ enrolledCourses s → s' = s).

(** ** What the text codec can carry *)

(** The character [d] does not occur in [s]. *)
Fixpoint free_of (d : ascii) (s : string) : bool :=
  match s with
  | EmptyString => true
  | String c rest => negb (Ascii.eqb c d) && free_of d rest
  end.

(** A key or a name survives a row: no comma and no line break. *)
Definition field_safe (s : string) : Prop :=
  free_of comma s && free_of nl s = true.

(** A cross-reference list survives a row: no entry holds a semicolon or a
    line break, the last entry is not empty, and no entry is repeated. *)
Definition list_safe (v : list string) : Prop :=
  Forall (λ x, free_of semicolon x && free_of nl x = true) v ∧
  last v ≠ Some "" ∧ NoDup v.

Definition student_safe (s : Student) : Prop :=
  field_safe (studentID s) ∧ field_safe (name s) ∧ list_safe (enrolledCourses s).

Definition course_safe (c : Course) : Prop :=
  field_safe (courseCode c) ∧ field_safe (courseName c) ∧
  list_safe (enrolledStudentIDs c).

Definition codec_safe (sm : StudentManagement) : Prop :=
  unique_keys sm ∧ Forall student_safe (students sm) ∧
  Forall course_safe (courses sm).

#[global] Instance codec_safe_dec sm : Decision (codec_safe sm).
Proof.
  unfold codec_safe, unique_keys, student_safe, course_safe, list_safe,
    field_safe. apply _.
Defined.

(** The content of a registry as the round trip compares it. *)
Definition same_elements {A : Type} (v w : list A) : Prop :=
  ∀ x, x ∈ v ↔ x ∈ w.

Definition transcript_pairs (sm : StudentManagement) : list (string * string) :=
  s ← students sm; (λ code, (studentID s, code)) <$> enrolledCourses s.

Definition roster_pairs (sm : StudentManagement) : list (string * string) :=
  c ← courses sm; (λ id, (id, courseCode c)) <$> enrolledStudentIDs c.

Definition student_facts (sm : StudentManagement)
  : list (string * string * StudentType) :=
  (λ s, (studentID s, name s, kind s)) <$> students sm.

Definition course_facts (sm : StudentManagement) : list (string * string) :=
  (λ c, (courseCode c, courseName c)) <$> courses sm.

Definition same_content (sm sm' : StudentManagement) : Prop :=
  same_elements (studentID <$> students sm) (studentID <$> students sm') ∧
  same_elements (courseCode <$> courses sm) (courseCode <$> courses sm') ∧
  same_elements (transcript_pairs sm) (transcript_pairs sm') ∧
  same_elements (roster_pairs sm) (roster_pairs sm') ∧
  same_elements (student_facts sm) (student_facts sm') ∧
  same_elements (course_facts sm) (course_facts sm').

(** A row without its line break. *)
Definition student_body (s : Student) : string :=
  studentID s +:+ "," +:+ name s +:+ "," +:+ getType (kind s) +:+ ","
    +:+ join_semicolon (enrolledCourses s).

Definition course_body (c : Course) : string :=
  courseCode c +:+ "," +:+ courseName c +:+ ","
    +:+ join_semicolon (enrolledStudentIDs c).

(** ** Fixtures *)

(** [populateDummyData], as the operations it issues. *)
Definition populateDummyData : list Op :=
  [ OpAddStudent "Alice Johnson" "S001" "Undergraduate";
    OpAddStudent "Bob Smith" "S002" "Postgraduate";
    OpAddStudent "Charlie Brown" "S003" "Undergraduate";
    OpAddStudent "David Williams" "S004" "Undergraduate";
    OpAddStudent "Eve Davis" "S005" "Postgraduate";
    OpAddCourse "Introduction to Programming" "CSE101";
    OpAddCourse "Data Structures" "CSE102";
    OpAddCourse "Algorithms" "CSE103";
    OpAddCourse "Operating Systems" "CSE104";
    OpEnroll "S001" "CSE101"; OpEnroll "S001" "CSE102";
    OpEnroll "S002" "CSE101"; OpEnroll "S003" "CSE103";
    OpEnroll "S004" "CSE104"; OpEnroll "S005" "CSE101";
    OpEnroll "S005" "CSE102"; OpEnroll "S005" "CSE104" ].

Definition dummy : StudentManagement := run populateDummyData.

(** No file yet, every path writable: the first run. *)
Definition fresh_fs : FileSystem := mkFS ∅ ∅.

(** A registry whose only student has a comma in the name, as the menu
    accepts it. *)
Definition comma_name : StudentManagement :=
  run [OpAddStudent "Smith, John" "S001" "Undergraduate"].

(** A students file whose row names a course that no courses file lists. *)
Definition dangling_fs : FileSystem :=
  mkFS (<[students_path :=
            students_header +:+ endl
              +:+ "S001,Alice Johnson,Undergraduate,CSE999" +:+ endl]>
          (<[courses_path := courses_header +:+ endl]> ∅))
       ∅.

(** ** Listings, the student report and the id check *)

Definition list_students_banner : string :=
  endl +:+ "--- List of Students ---" +:+ endl.

(** The text [listStudents] prints. *)
Definition listStudents (sm : StudentManagement) : string :=
  foldl (λ out s, out +:+ student_line s) list_students_banner (students sm).

Definition course_line (c : Course) : string :=
  "Course Name: " +:+ courseName c +:+ ", Course Code: " +:+ courseCode c +:+ endl.

Definition list_courses_banner : string :=
  endl +:+ "--- List of Courses ---" +:+ endl.

(** The text [listCourses] prints. *)
Definition listCourses (sm : StudentManagement) : string :=
  foldl (λ out c, out +:+ course_line c) list_courses_banner (courses sm).

Definition student_report_path (id : string) : string :=
  "Reports/StudentReports" +:+ "/" +:+ id +:+ ".csv".

Definition student_report_courses_header : string := "CourseCode,CourseName".

Definition student_report_line (c : Course) : string :=
  courseCode c +:+ "," +:+ courseName c.

Definition student_report_step (sm : StudentManagement) (out : string)
    (code : string) : string :=
  match findCourseIndex sm code with
  | Some cIdx =>
      match courses sm !! cIdx with
      | Some c => out +:+ student_report_line c +:+ endl
      | None => out
      end
  | None => out
  end.

(** The student's own row is written first, then an empty line, then the
    course section. *)
Definition generateReportForStudent (id : string) (sm : StudentManagement)
    (fs : FileSystem) : Outcome * FileSystem :=
  match findStudentIndex sm id with
  | None => (NotFound, fs)
  | Some sIdx =>
      match students sm !! sIdx with
      | None => (NotFound, fs)
      | Some s =>
          write_file (student_report_path id)
            (foldl (student_report_step sm)
               (report_header +:+ endl
                  +:+ (studentID s +:+ "," +:+ name s +:+ "," +:+ getType (kind s))
                  +:+ endl +:+ endl
                  +:+ student_report_courses_header +:+ endl)
               (enrolledCourses s))
            fs
      end
  end.

(** [isdigit] on a character of the basic character set. *)
Definition isdigit (c : ascii) : bool :=
  (48 <=? nat_of_ascii c) && (nat_of_ascii c <=? 57).

(** The loop of [isValidStudentID] over the characters after the first,
    left with [false] at the first character that is not a digit. *)
Fixpoint all_digits (s : string) : bool :=
  match s with
  | EmptyString => true
  | String c rest => if negb (isdigit c) then false else all_digits rest
  end.

Definition isValidStudentID (id : string) : bool :=
  if negb (String.length id =? 4) then false
  else match id with
       | EmptyString => false
       | String c rest =>
           if negb (Ascii.eqb c "S") then false else all_digits rest
       end.

(** ** Input helpers *)

(** [isspace] and [tolower] in the "C" locale, on a character of the basic
    character set: space and the control characters 9 to 13 are
    whitespace, the letters [A] to [Z] have a lower-case form. *)
Definition isspace (c : ascii) : bool :=
  (nat_of_ascii c =? 32) || ((9 <=? nat_of_ascii c) && (nat_of_ascii c <=? 13)).

Definition tolower (c : ascii) : ascii :=
  if (65 <=? nat_of_ascii c) && (nat_of_ascii c <=? 90)
  then ascii_of_nat (nat_of_ascii c + 32) else c.

(** [transform(result.begin(), result.end(), result.begin(), ::tolower)] *)
Fixpoint toLower (s : string) : string :=
  match s with
  | EmptyString => EmptyString
  | String c rest => String (tolower c) (toLower rest)
  end.

(** The first loop of [trim]: [start] moves forward over whitespace; the
    result is the range from [start] to the end of the string. *)
Fixpoint skip_space (s : string) : string :=
  match s with
  | EmptyString => EmptyString
  | String c rest => if isspace c then skip_space rest else s
  end.

(** The second loop of [trim], on the characters after [start]: [end] moves
    back from the last character while it is whitespace; what is kept are
    the characters up to and including the last one that is not
    whitespace. *)
Fixpoint strip_back (s : string) : string :=
  match s with
  | EmptyString => EmptyString
  | String c rest =>
      match strip_back rest with
      | EmptyString => if isspace c then EmptyString else String c EmptyString
      | kept => String c kept
      end
  end.

(** [trim]. On the empty string the do-while loop decrements the [begin]
    iterator, which the language leaves undefined: [None]. Otherwise
    [start] is either the end of the string (all whitespace: the range
    returned is empty) or the first character that is not whitespace, which
    the second loop never passes ([distance(start, end) > 0]). *)
Definition trim (s : string) : option string :=
  match s with
  | EmptyString => None
  | String _ _ =>
      match skip_space s with
      | EmptyString => Some EmptyString
      | String c rest => Some (String c (strip_back rest))
      end
  end.

(** The cancellation test of [getNonEmptyInput]: [toLower(input) == "esc"]. *)
Definition is_cancel (input : string) : bool :=
  bool_decide (toLower input = "esc").

Fixpoint all_space (s : string) : bool :=
  match s with
  | EmptyString => true
  | String c rest => isspace c && all_space rest
  end.

(** The first and the last character of [t], if any, are not whitespace. *)
Definition starts_clean (t : string) : Prop :=
  match t with
  | EmptyString => True
  | String c _ => isspace c = false
  end.

Definition ends_clean (t : string) : Prop :=
  ∀ front c, t = front +:+ String c "" → isspace c = false.

(** ** Vocabulary of the further properties *)

(** A student record after a load: same id, name and kind, and a list that
    starts with the old one. *)
Definition student_grows (s s' : Student) : Prop :=
  name s' = name s ∧ studentID s' = studentID s ∧ kind s' = kind s ∧
  enrolledCourses s `prefix_of` enrolledCourses s'.

Definition course_grows (c c' : Course) : Prop :=
  courseName c' = courseName c ∧ courseCode c' = courseCode c ∧
  enrolledStudentIDs c `prefix_of` enrolledStudentIDs c'.

(** Every record of [sm] is still at its position in [sm'], grown. *)
Definition registry_extends (sm sm' : StudentManagement) : Prop :=
  (∀ i s, students sm !! i = Some s →
     ∃ s', students sm' !! i = Some s' ∧ student_grows s s') ∧
  (∀ i c, courses sm !! i = Some c →
     ∃ c', courses sm' !! i = Some c' ∧ course_grows c c').

(** * Properties *)

#[local] Set Warnings "-clear-no-such-hyp".

(** Reduce record projections and the entity methods, nothing else. *)
Ltac fields :=
  cbn [students courses name studentID kind enrolledCourses courseName
       courseCode enrolledStudentIDs Student_addCourse Student_removeCourse
       Course_addStudent Course_removeStudent fst snd] in *.

(** ** Linear scans and keyed vectors *)

Section keyed.
Context {A : Type} (key : A → string).

Lemma find_index_key_None (v : list A) (k : string) :
  find_index (has_key key k) v = None ↔ k ∉ key <$> v.
Proof.
  induction v as [|x v IH]; simpl.
  - split; [intros _; apply not_elem_of_nil | done].
  - unfold has_key at 1. rewrite not_elem_of_cons. case_bool_decide as Hx.
    + split; [done | intros [Hne _]; congruence].
    + destruct (find_index (has_key key k) v) eqn:E; simpl.
      * split; [done | intros [_ Hn]]. by apply IH in Hn.
      * split; [intros _ | done]. split; [congruence | by apply IH].
Qed.

Lemma find_index_key_Some (v : list A) (k : string) (i : nat) :
  find_index (has_key key k) v = Some i →
  ∃ a, v !! i = Some a ∧ key a = k ∧ k ∉ key <$> take i v.
Proof.
  revert i. induction v as [|x v IH]; intros i; simpl; [done|].
  unfold has_key at 1. case_bool_decide as Hx.
  - intros [= <-]. exists x. simpl. split_and!; [done | done | apply not_elem_of_nil].
  - destruct (find_index (has_key key k) v) as [j|] eqn:E; simpl; [|done].
    intros [= <-]. destruct (IH j eq_refl) as (a & Ha & Hk & Hpre).
    exists a. simpl. split_and!; [done | done |].
    rewrite not_elem_of_cons. split; [congruence | done].
Qed.

Lemma find_index_key_is_Some (v : list A) (k : string) :
  is_Some (find_index (has_key key k) v) ↔ k ∈ key <$> v.
Proof.
  destruct (find_index (has_key key k) v) eqn:E.
  - split; [intros _ | by eauto].
    destruct (decide (k ∈ key <$> v)) as [|Hn]; [done|].
    apply find_index_key_None in Hn. congruence.
  - split; [by intros [? ?] | intros Hin].
    apply find_index_key_None in E. done.
Qed.

(** With unique keys the position of an element is determined by its
    key, so the scan finds it. *)
Lemma find_index_key_unique (v : list A) (i : nat) (a : A) :
  NoDup (key <$> v) → v !! i = Some a →
  find_index (has_key key (key a)) v = Some i.
Proof.
  intros Hnd Ha.
  destruct (find_index (has_key key (key a)) v) as [j|] eqn:E.
  - destruct (find_index_key_Some _ _ _ E) as (b & Hb & Hk & _).
    f_equal. eapply (NoDup_lookup (key <$> v) j i (key a)); [done | |].
    + by rewrite list_lookup_fmap, Hb; simpl; f_equal.
    + by rewrite list_lookup_fmap, Ha.
  - apply find_index_key_None in E. exfalso. apply E.
    apply list_elem_of_fmap. exists a. split; [done|].
    by eapply list_elem_of_lookup_2.
Qed.

Lemma elem_of_alter_key (f : A → A) (v : list A) (i : nat) (a y : A) :
  NoDup (key <$> v) → v !! i = Some a → key (f a) = key a →
  y ∈ alter f i v ↔ (y ∈ v ∧ key y ≠ key a) ∨ y = f a.
Proof.
  intros Hnd Ha Hf. revert i Hnd Ha.
  induction v as [|x v IH]; intros i Hnd Ha; [done|].
  rewrite fmap_cons, NoDup_cons in Hnd. destruct Hnd as [Hx Hnd].
  destruct i as [|i]; simpl in *.
  - injection Ha as ->. rewrite !elem_of_cons.
    assert (∀ z, z ∈ v → key z ≠ key a).
    { intros z Hz Heq. apply Hx. rewrite <- Heq.
      apply list_elem_of_fmap. eauto. }
    naive_solver.
  - rewrite !elem_of_cons, (IH i Hnd Ha).
    assert (key x ≠ key a).
    { intros Heq. apply Hx. rewrite Heq. apply list_elem_of_fmap.
      exists a. split; [done|]. by eapply list_elem_of_lookup_2. }
    naive_solver.
Qed.

Lemma elem_of_delete_key (v : list A) (i : nat) (a y : A) :
  NoDup (key <$> v) → v !! i = Some a →
  y ∈ delete i v ↔ y ∈ v ∧ key y ≠ key a.
Proof.
  revert i. induction v as [|x v IH]; intros i Hnd Ha; [done|].
  rewrite fmap_cons, NoDup_cons in Hnd. destruct Hnd as [Hx Hnd].
  destruct i as [|i]; simpl in *.
  - injection Ha as ->. rewrite elem_of_cons.
    assert (∀ z, z ∈ v → key z ≠ key a).
    { intros z Hz Heq. apply Hx. rewrite <- Heq.
      apply list_elem_of_fmap. eauto. }
    naive_solver.
  - rewrite !elem_of_cons, (IH i Hnd Ha).
    assert (key x ≠ key a).
    { intros Heq. apply Hx. rewrite Heq. apply list_elem_of_fmap.
      exists a. split; [done|]. by eapply list_elem_of_lookup_2. }
    naive_solver.
Qed.

Lemma keys_alter (f : A → A) (v : list A) (i : nat) :
  (∀ a, key (f a) = key a) → key <$> alter f i v = key <$> v.
Proof.
  intros Hf. rewrite (list_fmap_alter key f id).
  - by apply list_alter_id.
  - apply Forall_forall. intros a _. apply Hf.
Qed.

Lemma find_index_alter_key (f : A → A) (v : list A) (i : nat) (k : string) :
  (∀ a, key (f a) = key a) →
  find_index (has_key key k) (alter f i v) = find_index (has_key key k) v.
Proof.
  intros Hf. revert i. induction v as [|x v IH]; intros [|i]; try done.
  - change (alter f 0 (x :: v)) with (f x :: v). cbn [find_index].
    unfold has_key. by rewrite Hf.
  - change (alter f (S i) (x :: v)) with (x :: alter f i v). cbn [find_index].
    by rewrite IH.
Qed.

Lemma alter_keeps_key (f : A → A) (v : list A) (i : nat) (x : A) :
  (∀ a, key (f a) = key a) → x ∈ v →
  ∃ x', x' ∈ alter f i v ∧ key x' = key x.
Proof.
  intros Hf Hx.
  assert (Hk : key x ∈ key <$> alter f i v).
  { rewrite keys_alter by done. apply list_elem_of_fmap. eauto. }
  apply list_elem_of_fmap in Hk as (x' & ? & ?). eauto.
Qed.

Lemma keys_delete_NoDup (v : list A) (i : nat) :
  NoDup (key <$> v) → NoDup (key <$> delete i v).
Proof.
  intros Hnd. rewrite list_fmap_delete.
  eapply sublist_NoDup; [exact Hnd | apply sublist_delete].
Qed.
End keyed.

Lemma elem_of_push_back_unique (x y : string) (v : list string) :
  y ∈ push_back_unique x v ↔ y ∈ v ∨ y = x.
Proof.
  unfold push_back_unique. case_bool_decide.
  - naive_solver.
  - rewrite elem_of_app, list_elem_of_singleton. done.
Qed.

Lemma elem_of_erase_remove (x y : string) (v : list string) :
  y ∈ erase_remove x v ↔ y ∈ v ∧ y ≠ x.
Proof. unfold erase_remove. rewrite list_elem_of_filter. naive_solver. Qed.

Lemma NoDup_push_back_unique (x : string) (v : list string) :
  NoDup v → NoDup (push_back_unique x v).
Proof.
  intros Hnd. unfold push_back_unique. case_bool_decide; [done|].
  apply NoDup_app. split_and!; [done | | apply NoDup_singleton].
  intros z Hz. rewrite list_elem_of_singleton. congruence.
Qed.

Lemma NoDup_erase_remove (x : string) (v : list string) :
  NoDup v → NoDup (erase_remove x v).
Proof. apply NoDup_filter. Qed.

Lemma erase_remove_absent (x : string) (v : list string) :
  x ∉ v → erase_remove x v = v.
Proof.
  intros Hx. unfold erase_remove. induction v as [|y v IH]; [done|].
  apply not_elem_of_cons in Hx as [Hne Hx].
  rewrite filter_cons. destruct (decide (y ≠ x)) as [_|Hn].
  - f_equal. by apply IH.
  - exfalso. apply Hn. congruence.
Qed.

(** ** Lookups *)

Lemma findStudentIndex_None sm id :
  findStudentIndex sm id = None ↔ id ∉ studentID <$> students sm.
Proof. apply find_index_key_None. Qed.

Lemma findCourseIndex_None sm code :
  findCourseIndex sm code = None ↔ code ∉ courseCode <$> courses sm.
Proof. apply find_index_key_None. Qed.

Lemma findStudentIndex_Some sm id sIdx :
  findStudentIndex sm id = Some sIdx →
  ∃ s, students sm !! sIdx = Some s ∧ studentID s = id.
Proof.
  intros H. destruct (find_index_key_Some _ _ _ _ H) as (s & ? & ? & _). eauto.
Qed.

Lemma findCourseIndex_Some sm code cIdx :
  findCourseIndex sm code = Some cIdx →
  ∃ c, courses sm !! cIdx = Some c ∧ courseCode c = code.
Proof.
  intros H. destruct (find_index_key_Some _ _ _ _ H) as (c & ? & ? & _). eauto.
Qed.

Lemma getStudent_Some sm id s :
  getStudent sm id = Some s →
  ∃ sIdx, findStudentIndex sm id = Some sIdx ∧ students sm !! sIdx = Some s
          ∧ studentID s = id ∧ s ∈ students sm.
Proof.
  unfold getStudent. destruct (findStudentIndex sm id) as [i|] eqn:E; [|done].
  simpl. intros Hs. exists i. destruct (findStudentIndex_Some _ _ _ E) as (s' & Hs' & Hid).
  split_and!; [done | done | congruence | by eapply list_elem_of_lookup_2].
Qed.

Lemma getCourse_Some sm code c :
  getCourse sm code = Some c →
  ∃ cIdx, findCourseIndex sm code = Some cIdx ∧ courses sm !! cIdx = Some c
          ∧ courseCode c = code ∧ c ∈ courses sm.
Proof.
  unfold getCourse. destruct (findCourseIndex sm code) as [i|] eqn:E; [|done].
  simpl. intros Hc. exists i. destruct (findCourseIndex_Some _ _ _ E) as (c' & Hc' & Hid).
  split_and!; [done | done | congruence | by eapply list_elem_of_lookup_2].
Qed.

Lemma getStudent_is_Some sm id :
  is_Some (getStudent sm id) ↔ id ∈ studentID <$> students sm.
Proof.
  rewrite <- (find_index_key_is_Some studentID). unfold getStudent.
  fold (findStudentIndex sm id).
  destruct (findStudentIndex sm id) as [i|] eqn:E; simpl.
  - destruct (findStudentIndex_Some _ _ _ E) as (s & -> & _). split; eauto.
  - split; by intros [? ?].
Qed.

Lemma getCourse_is_Some sm code :
  is_Some (getCourse sm code) ↔ code ∈ courseCode <$> courses sm.
Proof.
  rewrite <- (find_index_key_is_Some courseCode). unfold getCourse.
  fold (findCourseIndex sm code).
  destruct (findCourseIndex sm code) as [i|] eqn:E; simpl.
  - destruct (findCourseIndex_Some _ _ _ E) as (c & -> & _). split; eauto.
  - split; by intros [? ?].
Qed.

(** ** Adding a student *)

(** C3. Uniqueness on insert: an [addStudent] call whose id is already in
    the collection reports [DuplicateKey] and returns the registry as it
    was, whatever calls built it: no record is added and none is modified. *)
Theorem addStudent_duplicate_unchanged (nm id type : string)
    (sm : StudentManagement) :
  id ∈ studentID <$> students sm →
  addStudent nm id type sm = (DuplicateKey, sm).
Proof.
  intros Hin. unfold addStudent.
  destruct (findStudentIndex sm id) eqn:E; [done|].
  apply findStudentIndex_None in E. done.
Qed.

Lemma addStudent_duplicate_unchanged_witness :
  let sm := (addStudent "Alice Johnson" "S001" "Undergraduate" emptySM).2 in
  "S001" ∈ studentID <$> students sm ∧
  addStudent "Bob Smith" "S001" "Postgraduate" sm = (DuplicateKey, sm).
Proof.
  simpl. assert (H : "S001" ∈ studentID <$>
    students (addStudent "Alice Johnson" "S001" "Undergraduate" emptySM).2).
  { compute_done. }
  split; [exact H|].
  exact (addStudent_duplicate_unchanged "Bob Smith" "S001" "Postgraduate" _ H).
Defined.

(** C9. Error precedence in [addStudent]: the duplicate-id test comes
    first, so a present id with an unrecognised type reports [DuplicateKey];
    a fresh id with an unrecognised type reports [InvalidArgument]; the
    registry is unchanged in both cases. *)
Theorem addStudent_error_precedence (nm id type : string)
    (sm : StudentManagement) :
  type ≠ "Undergraduate" → type ≠ "Postgraduate" →
  (id ∈ studentID <$> students sm →
     addStudent nm id type sm = (DuplicateKey, sm)) ∧
  (id ∉ studentID <$> students sm →
     addStudent nm id type sm = (InvalidArgument, sm)).
Proof.
  intros Hu Hp. unfold addStudent. split; intros Hid.
  - destruct (findStudentIndex sm id) eqn:E; [done|].
    apply findStudentIndex_None in E. done.
  - apply findStudentIndex_None in Hid. rewrite Hid.
    by rewrite !bool_decide_eq_false_2.
Qed.

Lemma addStudent_error_precedence_witness :
  let sm := (addStudent "Alice Johnson" "S001" "Undergraduate" emptySM).2 in
  addStudent "Bob Smith" "S001" "Doctoral" sm = (DuplicateKey, sm) ∧
  addStudent "Bob Smith" "S002" "Doctoral" sm = (InvalidArgument, sm).
Proof.
  simpl.
  assert (Hu : "Doctoral" ≠ "Undergraduate") by discriminate.
  assert (Hp : "Doctoral" ≠ "Postgraduate") by discriminate.
  split.
  - apply (addStudent_error_precedence "Bob Smith" "S001" "Doctoral" _ Hu Hp).
    compute_done.
  - apply (addStudent_error_precedence "Bob Smith" "S002" "Doctoral" _ Hu Hp).
    compute_done.
Defined.

(** ** Cascade on delete *)

Lemma removeStudent_found sm id sIdx :
  findStudentIndex sm id = Some sIdx →
  removeStudent id sm =
    (Success, mkSM (delete sIdx (students sm)) (Course_removeStudent id <$> courses sm)).
Proof. intros H. unfold removeStudent. by rewrite H. Qed.

Lemma removeCourse_found sm code cIdx :
  findCourseIndex sm code = Some cIdx →
  removeCourse code sm =
    (Success, mkSM (Student_removeCourse code <$> students sm) (delete cIdx (courses sm))).
Proof. intros H. unfold removeCourse. by rewrite H. Qed.

Lemma Course_removeStudent_purged id c :
  roster_purged id c (Course_removeStudent id c).
Proof.
  unfold roster_purged. simpl. split_and!; try done.
  - rewrite elem_of_erase_remove. naive_solver.
  - intros x Hx. rewrite elem_of_erase_remove. naive_solver.
  - intros Hid. unfold Course_removeStudent.
    rewrite erase_remove_absent by done. by destruct c.
Qed.

Lemma Student_removeCourse_purged code s :
  transcript_purged code s (Student_removeCourse code s).
Proof.
  unfold transcript_purged. simpl. split_and!; try done.
  - rewrite elem_of_erase_remove. naive_solver.
  - intros x Hx. rewrite elem_of_erase_remove. naive_solver.
  - intros Hid. unfold Student_removeCourse.
    rewrite erase_remove_absent by done. by destruct s.
Qed.

(** C4. Cascade on delete: removing a present student succeeds, deletes that
    student's record and purges the id from every roster, leaving the
    courses in place and every other roster entry (and every roster without
    the id) as it was; removing a present course does the same to the
    transcripts. Afterwards no roster holds the id, no transcript holds the
    code, and with unique keys the key itself is gone from its collection. *)
Theorem cascade_on_delete (sm : StudentManagement) :
  (∀ id, id ∈ studentID <$> students sm →
     ∃ sIdx s, students sm !! sIdx = Some s ∧ studentID s = id ∧
       (removeStudent id sm).1 = Success ∧
       students (removeStudent id sm).2 = delete sIdx (students sm) ∧
       Forall2 (roster_purged id) (courses sm) (courses (removeStudent id sm).2) ∧
       (∀ c', c' ∈ courses (removeStudent id sm).2 → id ∉ enrolledStudentIDs c') ∧
       (NoDup (studentID <$> students sm) →
          id ∉ studentID <$> students (removeStudent id sm).2)) ∧
  (∀ code, code ∈ courseCode <$> courses sm →
     ∃ cIdx c, courses sm !! cIdx = Some c ∧ courseCode c = code ∧
       (removeCourse code sm).1 = Success ∧
       courses (removeCourse code sm).2 = delete cIdx (courses sm) ∧
       Forall2 (transcript_purged code) (students sm) (students (removeCourse code sm).2) ∧
       (∀ s', s' ∈ students (removeCourse code sm).2 → code ∉ enrolledCourses s') ∧
       (NoDup (courseCode <$> courses sm) →
          code ∉ courseCode <$> courses (removeCourse code sm).2)).
Proof.
  split.
  - intros id Hid. apply (find_index_key_is_Some studentID) in Hid as [sIdx E].
    fold (findStudentIndex sm id) in E.
    destruct (findStudentIndex_Some _ _ _ E) as (s & Hs & Hk).
    exists sIdx, s. rewrite (removeStudent_found _ _ _ E). simpl.
    split_and!; try done.
    + apply Forall2_fmap_r, Forall_Forall2_diag, Forall_forall.
      intros c _. apply Course_removeStudent_purged.
    + intros c' (c & -> & _)%list_elem_of_fmap.
      apply Course_removeStudent_purged.
    + intros Hnd (s' & Hid' & Hin)%list_elem_of_fmap.
      apply (elem_of_delete_key studentID _ _ s) in Hin as [_ Hne]; [|done..].
      congruence.
  - intros code Hcode. apply (find_index_key_is_Some courseCode) in Hcode as [cIdx E].
    fold (findCourseIndex sm code) in E.
    destruct (findCourseIndex_Some _ _ _ E) as (c & Hc & Hk).
    exists cIdx, c. rewrite (removeCourse_found _ _ _ E). simpl.
    split_and!; try done.
    + apply Forall2_fmap_r, Forall_Forall2_diag, Forall_forall.
      intros s _. apply Student_removeCourse_purged.
    + intros s' (s & -> & _)%list_elem_of_fmap.
      apply Student_removeCourse_purged.
    + intros Hnd (c' & Hid' & Hin)%list_elem_of_fmap.
      apply (elem_of_delete_key courseCode _ _ c) in Hin as [_ Hne]; [|done..].
      congruence.
Qed.

(** ** Consistency is preserved by every operation *)

Lemma consistent_empty : consistent emptySM.
Proof.
  unfold consistent, unique_keys, referential_symmetry, lists_nodup, emptySM.
  simpl. split_and!; try apply NoDup_nil_2; set_solver.
Qed.

Lemma addStudent_fresh_consistent nm id k sm :
  id ∉ studentID <$> students sm → consistent sm →
  consistent (mkSM (students sm ++ [mkStudent nm id k []]) (courses sm)).
Proof.
  intros Hfresh ((Hns & Hnc) & (Hc & Hd & He) & (Hts & Hrs)).
  unfold consistent, unique_keys, referential_symmetry, lists_nodup.
  split_and!; fields.
  - rewrite fmap_app. apply NoDup_app. split_and!; [done | | apply NoDup_singleton].
    intros x Hx ->%list_elem_of_singleton. done.
  - done.
  - intros s code [Hs | ->%list_elem_of_singleton]%elem_of_app Hcode; [eauto|].
    by apply not_elem_of_nil in Hcode.
  - intros c x Hc' Hx. destruct (Hd c x Hc' Hx) as (s & Hs & Hk).
    exists s. rewrite elem_of_app. eauto.
  - intros s c [Hs | ->%list_elem_of_singleton]%elem_of_app Hc'; [eauto|].
    fields. split; [by intros ?%not_elem_of_nil|].
    intros Hx. destruct (Hd c id Hc' Hx) as (s & Hs & Hk).
    exfalso. apply Hfresh. apply list_elem_of_fmap. eauto.
  - intros s [Hs | ->%list_elem_of_singleton]%elem_of_app; [eauto|].
    apply NoDup_nil_2.
  - done.
Qed.

Lemma addStudent_consistent nm id type sm :
  consistent sm → consistent (addStudent nm id type sm).2.
Proof.
  intros Hsm. unfold addStudent.
  destruct (findStudentIndex sm id) eqn:E; [done|].
  apply findStudentIndex_None in E.
  repeat case_bool_decide; fields; auto using addStudent_fresh_consistent.
Qed.

Lemma addCourse_consistent cname code sm :
  consistent sm → consistent (addCourse cname code sm).2.
Proof.
  intros Hsm. unfold addCourse.
  destruct (findCourseIndex sm code) eqn:E; [done|].
  apply findCourseIndex_None in E. fields.
  destruct Hsm as ((Hns & Hnc) & (Hc & Hd & He) & (Hts & Hrs)).
  unfold consistent, unique_keys, referential_symmetry, lists_nodup.
  split_and!; fields.
  - done.
  - rewrite fmap_app. apply NoDup_app. split_and!; [done | | apply NoDup_singleton].
    intros x Hx ->%list_elem_of_singleton. done.
  - intros s x Hs Hx. destruct (Hc s x Hs Hx) as (c & Hc' & Hk).
    exists c. rewrite elem_of_app. eauto.
  - intros c x [Hc' | ->%list_elem_of_singleton]%elem_of_app Hx; [eauto|].
    by apply not_elem_of_nil in Hx.
  - intros s c Hs [Hc' | ->%list_elem_of_singleton]%elem_of_app; [eauto|].
    fields. split; [|by intros ?%not_elem_of_nil].
    intros Hx. destruct (Hc s code Hs Hx) as (c & Hc' & Hk).
    exfalso. apply E. apply list_elem_of_fmap. eauto.
  - done.
  - intros c [Hc' | ->%list_elem_of_singleton]%elem_of_app; [eauto|].
    apply NoDup_nil_2.
Qed.

Lemma removeStudent_consistent id sm :
  consistent sm → consistent (removeStudent id sm).2.
Proof.
  intros Hsm. unfold removeStudent.
  destruct (findStudentIndex sm id) as [sIdx|] eqn:E; [|done].
  destruct (findStudentIndex_Some _ _ _ E) as (s0 & Hs0 & Hid0). fields.
  destruct Hsm as ((Hns & Hnc) & (Hc & Hd & He) & (Hts & Hrs)).
  pose proof (λ y, elem_of_delete_key studentID _ _ _ y Hns Hs0) as Hdel.
  rewrite Hid0 in Hdel.
  unfold consistent, unique_keys, referential_symmetry, lists_nodup.
  split_and!; fields.
  - by apply keys_delete_NoDup.
  - rewrite <- list_fmap_compose. done.
  - intros s x [Hs _]%Hdel Hx. destruct (Hc s x Hs Hx) as (c & Hc' & Hk).
    exists (Course_removeStudent id c). split; [|done].
    apply list_elem_of_fmap. eauto.
  - intros c' x (c & -> & Hc')%list_elem_of_fmap [Hx Hne]%elem_of_erase_remove.
    destruct (Hd c x Hc' Hx) as (s & Hs & Hk). exists s. split; [|done].
    apply Hdel. split; [done | congruence].
  - intros s c' [Hs Hne]%Hdel (c & -> & Hc')%list_elem_of_fmap. fields.
    rewrite elem_of_erase_remove, (He s c Hs Hc'). naive_solver.
  - intros s [Hs _]%Hdel. eauto.
  - intros c' (c & -> & Hc')%list_elem_of_fmap. fields.
    apply NoDup_erase_remove. eauto.
Qed.

Lemma removeCourse_consistent code sm :
  consistent sm → consistent (removeCourse code sm).2.
Proof.
  intros Hsm. unfold removeCourse.
  destruct (findCourseIndex sm code) as [cIdx|] eqn:E; [|done].
  destruct (findCourseIndex_Some _ _ _ E) as (c0 & Hc0 & Hid0). fields.
  destruct Hsm as ((Hns & Hnc) & (Hc & Hd & He) & (Hts & Hrs)).
  pose proof (λ y, elem_of_delete_key courseCode _ _ _ y Hnc Hc0) as Hdel.
  rewrite Hid0 in Hdel.
  unfold consistent, unique_keys, referential_symmetry, lists_nodup.
  split_and!; fields.
  - rewrite <- list_fmap_compose. done.
  - by apply keys_delete_NoDup.
  - intros s' x (s & -> & Hs)%list_elem_of_fmap [Hx Hne]%elem_of_erase_remove.
    destruct (Hc s x Hs Hx) as (c & Hc' & Hk). exists c. split; [|done].
    apply Hdel. split; [done | congruence].
  - intros c x [Hc' _]%Hdel Hx. destruct (Hd c x Hc' Hx) as (s & Hs & Hk).
    exists (Student_removeCourse code s). split; [|done].
    apply list_elem_of_fmap. eauto.
  - intros s' c (s & -> & Hs)%list_elem_of_fmap [Hc' Hne]%Hdel. fields.
    rewrite elem_of_erase_remove, (He s c Hs Hc'). naive_solver.
  - intros s' (s & -> & Hs)%list_elem_of_fmap. fields.
    apply NoDup_erase_remove. eauto.
  - intros c [Hc' _]%Hdel. eauto.
Qed.

Lemma enrollStudentInCourse_cases id code sm :
  match getStudent sm id, getCourse sm code with
  | Some s, Some c =>
      if bool_decide (code ∈ enrolledCourses s)
      then enrollStudentInCourse id code sm = (AlreadyEnrolled, sm)
      else ∃ sIdx cIdx,
          students sm !! sIdx = Some s ∧ courses sm !! cIdx = Some c ∧
          enrollStudentInCourse id code sm =
            (Success, mkSM (alter (Student_addCourse code) sIdx (students sm))
                           (alter (Course_addStudent id) cIdx (courses sm)))
  | _, _ => enrollStudentInCourse id code sm = (NotFound, sm)
  end.
Proof.
  unfold getStudent, getCourse, enrollStudentInCourse.
  destruct (findStudentIndex sm id) as [sIdx|] eqn:Es; simpl; [|done].
  destruct (findStudentIndex_Some _ _ _ Es) as (s & Hs & _). rewrite Hs.
  destruct (findCourseIndex sm code) as [cIdx|] eqn:Ec; simpl; [|done].
  destruct (findCourseIndex_Some _ _ _ Ec) as (c & Hc & _). rewrite Hc.
  case_bool_decide; [done|]. exists sIdx, cIdx. done.
Qed.

Lemma enrollStudentInCourse_consistent id code sm :
  consistent sm → consistent (enrollStudentInCourse id code sm).2.
Proof.
  intros Hsm. pose proof (enrollStudentInCourse_cases id code sm) as Hcases.
  destruct (getStudent sm id) as [s0|] eqn:Es; [|by rewrite Hcases].
  destruct (getCourse sm code) as [c0|] eqn:Ec; [|by rewrite Hcases].
  case_bool_decide as Hlinked; [by rewrite Hcases|].
  destruct Hcases as (sIdx & cIdx & Hs0 & Hc0 & ->).
  apply getStudent_Some in Es as (_ & _ & _ & Hid0 & Hin0).
  apply getCourse_Some in Ec as (_ & _ & _ & Hcode0 & Hcin0).
  destruct Hsm as ((Hns & Hnc) & (Hc & Hd & He) & (Hts & Hrs)).
  pose proof (λ y, elem_of_alter_key studentID (Student_addCourse code)
                     _ _ _ y Hns Hs0 eq_refl) as Hst.
  pose proof (λ y, elem_of_alter_key courseCode (Course_addStudent id)
                     _ _ _ y Hnc Hc0 eq_refl) as Hco.
  rewrite Hid0 in Hst. rewrite Hcode0 in Hco.
  assert (Hkc : ∀ c, c ∈ courses sm →
            ∃ c', c' ∈ alter (Course_addStudent id) cIdx (courses sm)
                  ∧ courseCode c' = courseCode c).
  { intros c. by apply (alter_keeps_key courseCode). }
  assert (Hks : ∀ s, s ∈ students sm →
            ∃ s', s' ∈ alter (Student_addCourse code) sIdx (students sm)
                  ∧ studentID s' = studentID s).
  { intros s. by apply (alter_keeps_key studentID). }
  unfold consistent, unique_keys, referential_symmetry, lists_nodup.
  split_and!; fields.
  - by rewrite (keys_alter studentID).
  - by rewrite (keys_alter courseCode).
  - intros s x [[Hs _] | ->]%Hst Hx; fields.
    + destruct (Hc s x Hs Hx) as (c & Hc' & <-). by apply Hkc.
    + apply elem_of_push_back_unique in Hx as [Hx | ->].
      * destruct (Hc s0 x Hin0 Hx) as (c & Hc' & <-). by apply Hkc.
      * rewrite <- Hcode0. by apply Hkc.
  - intros c x [[Hc' _] | ->]%Hco Hx; fields.
    + destruct (Hd c x Hc' Hx) as (s & Hs & <-). by apply Hks.
    + apply elem_of_push_back_unique in Hx as [Hx | ->].
      * destruct (Hd c0 x Hcin0 Hx) as (s & Hs & <-). by apply Hks.
      * rewrite <- Hid0. by apply Hks.
  - intros s c [[Hs Hsne] | ->]%Hst [[Hc' Hcne] | ->]%Hco; fields;
      rewrite ?elem_of_push_back_unique.
    + by apply He.
    + rewrite (He s c0 Hs Hcin0). naive_solver.
    + rewrite <- (He s0 c Hin0 Hc'). naive_solver.
    + naive_solver.
  - intros s [[Hs _] | ->]%Hst; fields; [eauto|].
    apply NoDup_push_back_unique. eauto.
  - intros c [[Hc' _] | ->]%Hco; fields; [eauto|].
    apply NoDup_push_back_unique. eauto.
Qed.

Lemma removeStudentFromCourse_consistent id code sm :
  consistent sm → consistent (removeStudentFromCourse id code sm).2.
Proof.
  intros Hsm. unfold removeStudentFromCourse.
  destruct (findStudentIndex sm id) as [sIdx|] eqn:Es; [|done].
  destruct (findCourseIndex sm code) as [cIdx|] eqn:Ec; [|done].
  destruct (findStudentIndex_Some _ _ _ Es) as (s0 & Hs0 & Hid0).
  destruct (findCourseIndex_Some _ _ _ Ec) as (c0 & Hc0 & Hcode0).
  pose proof (list_elem_of_lookup_2 _ _ _ Hs0) as Hin0.
  pose proof (list_elem_of_lookup_2 _ _ _ Hc0) as Hcin0.
  destruct Hsm as ((Hns & Hnc) & (Hc & Hd & He) & (Hts & Hrs)).
  pose proof (λ y, elem_of_alter_key studentID (Student_removeCourse code)
                     _ _ _ y Hns Hs0 eq_refl) as Hst.
  pose proof (λ y, elem_of_alter_key courseCode (Course_removeStudent id)
                     _ _ _ y Hnc Hc0 eq_refl) as Hco.
  rewrite Hid0 in Hst. rewrite Hcode0 in Hco.
  assert (Hkc : ∀ c, c ∈ courses sm →
            ∃ c', c' ∈ alter (Course_removeStudent id) cIdx (courses sm)
                  ∧ courseCode c' = courseCode c).
  { intros c. by apply (alter_keeps_key courseCode). }
  assert (Hks : ∀ s, s ∈ students sm →
            ∃ s', s' ∈ alter (Student_removeCourse code) sIdx (students sm)
                  ∧ studentID s' = studentID s).
  { intros s. by apply (alter_keeps_key studentID). }
  unfold consistent, unique_keys, referential_symmetry, lists_nodup.
  split_and!; fields.
  - by rewrite (keys_alter studentID).
  - by rewrite (keys_alter courseCode).
  - intros s x [[Hs _] | ->]%Hst Hx; fields.
    + destruct (Hc s x Hs Hx) as (c & Hc' & <-). by apply Hkc.
    + apply elem_of_erase_remove in Hx as [Hx _].
      destruct (Hc s0 x Hin0 Hx) as (c & Hc' & <-). by apply Hkc.
  - intros c x [[Hc' _] | ->]%Hco Hx; fields.
    + destruct (Hd c x Hc' Hx) as (s & Hs & <-). by apply Hks.
    + apply elem_of_erase_remove in Hx as [Hx _].
      destruct (Hd c0 x Hcin0 Hx) as (s & Hs & <-). by apply Hks.
  - intros s c [[Hs Hsne] | ->]%Hst [[Hc' Hcne] | ->]%Hco; fields;
      rewrite ?elem_of_erase_remove.
    + by apply He.
    + rewrite (He s c0 Hs Hcin0). naive_solver.
    + rewrite <- (He s0 c Hin0 Hc'). naive_solver.
    + naive_solver.
  - intros s [[Hs _] | ->]%Hst; fields; [eauto|].
    apply NoDup_erase_remove. eauto.
  - intros c [[Hc' _] | ->]%Hco; fields; [eauto|].
    apply NoDup_erase_remove. eauto.
Qed.

Lemma step_consistent sm op : consistent sm → consistent (step sm op).
Proof.
  destruct op; simpl;
    auto using addStudent_consistent, removeStudent_consistent,
      addCourse_consistent, removeCourse_consistent,
      enrollStudentInCourse_consistent, removeStudentFromCourse_consistent.
Qed.

Lemma run_consistent ops : consistent (run ops).
Proof.
  unfold run. induction ops as [|op ops IH] using rev_ind.
  - apply consistent_empty.
  - rewrite foldl_snoc. by apply step_consistent.
Qed.

(** C1. Referential symmetry is an invariant: in every registry reached
    from the empty one by a sequence of enroll, unenroll, removeStudent and
    removeCourse operations (with addStudent and addCourse, which create the
    records these work on), a course code is in a student's
    [enrolledCourses] iff the student's id is in that course's
    [enrolledStudentIDs], and no entry of either list dangles. *)
Theorem referential_symmetry_invariant (ops : list Op) :
  referential_symmetry (run ops).
Proof. apply run_consistent. Qed.

(** ** Enrolment *)

Lemma getStudent_alter sm f sIdx cs id :
  (∀ s, studentID (f s) = studentID s) →
  findStudentIndex sm id = Some sIdx →
  getStudent (mkSM (alter f sIdx (students sm)) cs) id = f <$> getStudent sm id.
Proof.
  intros Hf E. unfold getStudent, findStudentIndex. fields.
  rewrite (find_index_alter_key studentID) by done.
  fold (findStudentIndex sm id). rewrite E. simpl.
  apply list_lookup_alter_eq.
Qed.

Lemma getCourse_alter sm f cIdx ss code :
  (∀ c, courseCode (f c) = courseCode c) →
  findCourseIndex sm code = Some cIdx →
  getCourse (mkSM ss (alter f cIdx (courses sm))) code = f <$> getCourse sm code.
Proof.
  intros Hf E. unfold getCourse, findCourseIndex. fields.
  rewrite (find_index_alter_key courseCode) by done.
  fold (findCourseIndex sm code). rewrite E. simpl.
  apply list_lookup_alter_eq.
Qed.

Lemma filter_eq_NoDup_length (x : string) (v : list string) :
  NoDup v → x ∈ v → length (filter (λ y, y = x) v) = 1.
Proof.
  induction v as [|y v IH]; intros Hnd Hx; [by apply not_elem_of_nil in Hx|].
  apply NoDup_cons in Hnd as [Hy Hnd]. rewrite filter_cons.
  destruct (decide (y = x)) as [->|Hne]; simpl.
  - f_equal. destruct (filter (λ y, y = x) v) as [|z l] eqn:E; [done|].
    assert (Hz : z ∈ filter (λ y, y = x) v) by (rewrite E; left).
    apply list_elem_of_filter in Hz as [-> Hz]. done.
  - apply IH; [done|]. apply elem_of_cons in Hx as [->|Hx]; done.
Qed.

(** C5. Enroll semantics. [NotFound] when the student id or the course code
    is absent; [AlreadyEnrolled] when the code is already on the student's
    list; otherwise the code is appended to the student's list and the id is
    put on the course's roster, the two records staying where they were.
    Whenever the call does not succeed the registry is returned as it was.
    In a registry reached through the operations, a successful enroll puts
    the id at the end of the roster, and repeating it reports
    [AlreadyEnrolled], changes nothing and leaves exactly one roster entry
    for the student; there the link can be read off either side: an id on
    the roster also makes the call report [AlreadyEnrolled]. *)
Theorem enroll_semantics (id code : string) (sm : StudentManagement) :
  (id ∉ studentID <$> students sm ∨ code ∉ courseCode <$> courses sm →
     enrollStudentInCourse id code sm = (NotFound, sm)) ∧
  (∀ s, getStudent sm id = Some s → code ∈ courseCode <$> courses sm →
     code ∈ enrolledCourses s →
     enrollStudentInCourse id code sm = (AlreadyEnrolled, sm)) ∧
  (∀ s c, getStudent sm id = Some s → getCourse sm code = Some c →
     code ∉ enrolledCourses s →
     ∃ sIdx cIdx,
       students sm !! sIdx = Some s ∧ courses sm !! cIdx = Some c ∧
       enrollStudentInCourse id code sm =
         (Success,
          mkSM (<[sIdx := mkStudent (name s) (studentID s) (kind s)
                                     (enrolledCourses s ++ [code])]> (students sm))
               (<[cIdx := mkCourse (courseName c) (courseCode c)
                            (if bool_decide (id ∈ enrolledStudentIDs c)
                             then enrolledStudentIDs c
                             else enrolledStudentIDs c ++ [id])]> (courses sm))) ∧
       (∃ s', getStudent (enrollStudentInCourse id code sm).2 id = Some s' ∧
              code ∈ enrolledCourses s') ∧
       (∃ c', getCourse (enrollStudentInCourse id code sm).2 code = Some c' ∧
              id ∈ enrolledStudentIDs c')) ∧
  ((enrollStudentInCourse id code sm).1 ≠ Success →
     (enrollStudentInCourse id code sm).2 = sm) ∧
  (∀ ops, sm = run ops → (enrollStudentInCourse id code sm).1 = Success →
     let sm1 := (enrollStudentInCourse id code sm).2 in
     (∃ c c1, getCourse sm code = Some c ∧ getCourse sm1 code = Some c1 ∧
              enrolledStudentIDs c1 = enrolledStudentIDs c ++ [id]) ∧
     enrollStudentInCourse id code sm1 = (AlreadyEnrolled, sm1) ∧
     (∃ c2, getCourse (enrollStudentInCourse id code sm1).2 code = Some c2 ∧
            length (filter (λ x, x = id) (enrolledStudentIDs c2)) = 1)) ∧
  (∀ ops c, sm = run ops → getCourse sm code = Some c →
     id ∈ enrolledStudentIDs c →
     enrollStudentInCourse id code sm = (AlreadyEnrolled, sm)).
Proof.
  pose proof (enrollStudentInCourse_cases id code sm) as Hcases.
  assert (Hsucc : ∀ s c, getStudent sm id = Some s → getCourse sm code = Some c →
     code ∉ enrolledCourses s →
     ∃ sIdx cIdx,
       findStudentIndex sm id = Some sIdx ∧ findCourseIndex sm code = Some cIdx ∧
       students sm !! sIdx = Some s ∧ courses sm !! cIdx = Some c ∧
       enrollStudentInCourse id code sm =
         (Success, mkSM (alter (Student_addCourse code) sIdx (students sm))
                        (alter (Course_addStudent id) cIdx (courses sm)))).
  { intros s c Hs Hc Hn. rewrite Hs, Hc, bool_decide_eq_false_2 in Hcases by done.
    destruct Hcases as (sIdx' & cIdx' & Hs' & Hc' & Heq).
    apply getStudent_Some in Hs as (sIdx & Es & Hls & _).
    apply getCourse_Some in Hc as (cIdx & Ec & Hlc & _).
    exists sIdx, cIdx. split_and!; try done.
    unfold enrollStudentInCourse. by rewrite Es, Ec, Hls, bool_decide_eq_false_2. }
  split_and!.
  - intros [Hid | Hcode].
    + assert (getStudent sm id = None) as Hn.
      { destruct (getStudent sm id) eqn:E; [|done].
        exfalso. apply Hid. apply getStudent_is_Some. eauto. }
      by rewrite Hn in Hcases.
    + assert (getCourse sm code = None) as Hn.
      { destruct (getCourse sm code) eqn:E; [|done].
        exfalso. apply Hcode. apply getCourse_is_Some. eauto. }
      rewrite Hn in Hcases. by destruct (getStudent sm id).
  - intros s Hs [c Hc]%getCourse_is_Some Hin.
    by rewrite Hs, Hc, bool_decide_eq_true_2 in Hcases.
  - intros s c Hs Hc Hn.
    destruct (Hsucc s c Hs Hc Hn) as (sIdx & cIdx & Es & Ec & Hls & Hlc & Heq).
    exists sIdx, cIdx. rewrite Heq. fields. split_and!; try done.
    + f_equal. f_equal.
      * rewrite list_insert_alter. apply list_alter_ext; [|done].
        intros s' Hs'. assert (s' = s) as -> by congruence.
        unfold Student_addCourse, push_back_unique.
        by rewrite bool_decide_eq_false_2.
      * rewrite list_insert_alter. apply list_alter_ext; [|done].
        intros c' Hc'. by assert (c' = c) as -> by congruence.
    + rewrite (getStudent_alter sm _ _ _ id) by done. rewrite Hs. simpl.
      eexists. split; [done|]. fields. apply elem_of_push_back_unique. by right.
    + rewrite (getCourse_alter sm _ _ _ code) by done. rewrite Hc. simpl.
      eexists. split; [done|]. fields. apply elem_of_push_back_unique. by right.
  - intros Hfail. destruct (getStudent sm id) as [s|]; [|by rewrite Hcases].
    destruct (getCourse sm code) as [c|]; [|by rewrite Hcases].
    case_bool_decide; [by rewrite Hcases|].
    destruct Hcases as (? & ? & _ & _ & Heq). by rewrite Heq in Hfail.
  - intros ops -> Hok sm1.
    pose proof (run_consistent ops) as Hinv.
    pose proof (enrollStudentInCourse_consistent id code _ Hinv) as Hinv1.
    fold sm1 in Hinv1.
    destruct (getStudent (run ops) id) as [s|] eqn:Hs;
      [|by rewrite Hcases in Hok].
    destruct (getCourse (run ops) code) as [c|] eqn:Hc;
      [|by rewrite Hcases in Hok].
    case_bool_decide as Hlinked; [by rewrite Hcases in Hok|]. clear Hcases.
    destruct (Hsucc s c eq_refl eq_refl Hlinked)
      as (sIdx & cIdx & Es & Ec & Hls & Hlc & Heq).
    assert (Hs1 : getStudent sm1 id = Some (Student_addCourse code s)).
    { unfold sm1. rewrite Heq. fields.
      rewrite (getStudent_alter (run ops) _ _ _ id) by done. by rewrite Hs. }
    assert (Hc1 : getCourse sm1 code = Some (Course_addStudent id c)).
    { unfold sm1. rewrite Heq. fields.
      rewrite (getCourse_alter (run ops) _ _ _ code) by done. by rewrite Hc. }
    assert (Hfresh : id ∉ enrolledStudentIDs c).
    { destruct Hinv as (_ & (_ & _ & He) & _).
      apply getStudent_Some in Hs as (_ & _ & _ & Hid & Hin).
      apply getCourse_Some in Hc as (_ & _ & _ & Hcode & Hcin).
      rewrite <- Hid, <- (He s c Hin Hcin), Hcode. done. }
    assert (Hagain : enrollStudentInCourse id code sm1 = (AlreadyEnrolled, sm1)).
    { pose proof (enrollStudentInCourse_cases id code sm1) as Hcases1.
      rewrite Hs1, Hc1, bool_decide_eq_true_2 in Hcases1; [done|].
      fields. apply elem_of_push_back_unique. by right. }
    split_and!.
    + exists c, (Course_addStudent id c). split_and!; try done.
      fields. unfold push_back_unique. by rewrite bool_decide_eq_false_2.
    + done.
    + rewrite Hagain. fields. exists (Course_addStudent id c). split; [done|].
      apply filter_eq_NoDup_length.
      * destruct Hinv1 as (_ & _ & (_ & Hrs)). apply Hrs.
        apply getCourse_Some in Hc1 as (_ & _ & _ & _ & Hcin). done.
      * fields. apply elem_of_push_back_unique. by right.
  - intros ops c -> Hc Hin.
    destruct (run_consistent ops) as (_ & (_ & Hd & He) & _).
    destruct (getCourse_Some _ _ _ Hc) as (_ & _ & _ & Hcode & Hcin).
    destruct (Hd c id Hcin Hin) as (s0 & Hs0 & Hid0).
    assert (is_Some (getStudent (run ops) id)) as [s Hs].
    { apply getStudent_is_Some, list_elem_of_fmap. eauto. }
    destruct (getStudent_Some _ _ _ Hs) as (_ & _ & _ & Hid & Hsin).
    rewrite Hs, Hc, bool_decide_eq_true_2 in Hcases; [done|].
    rewrite <- Hcode. apply (He s c Hsin Hcin). by rewrite Hid.
Qed.

(** ** Strings *)

Lemma append_nil_l (b : string) : "" +:+ b = b.
Proof. reflexivity. Qed.

Lemma append_cons (x : ascii) (a b : string) :
  String x a +:+ b = String x (a +:+ b).
Proof. reflexivity. Qed.

Lemma append_assoc (a b c : string) : (a +:+ b) +:+ c = a +:+ b +:+ c.
Proof.
  induction a as [|x a IH]; [done|]. rewrite !append_cons. by f_equal.
Qed.

Lemma append_nil_r (a : string) : a +:+ "" = a.
Proof. induction a as [|x a IH]; [done|]. rewrite append_cons. by f_equal. Qed.

Lemma prefix_spec (kw s : string) :
  String.prefix kw s = true ↔ ∃ post, s = kw +:+ post.
Proof.
  revert s. induction kw as [|a kw IH]; intros s.
  - destruct s; split; eauto.
  - setoid_rewrite append_cons. destruct s as [|b s]; simpl.
    + split; [done | by intros [? ?]].
    + destruct (ascii_dec a b) as [->|Hne].
      * rewrite IH. split; intros [post H]; exists post; congruence.
      * split; [done | intros [post H]; congruence].
Qed.

Lemma string_find_unfold (s kw : string) :
  string_find s kw =
    if String.prefix kw s then Some 0
    else match s with
         | EmptyString => None
         | String _ rest => S <$> string_find rest kw
         end.
Proof. by destruct s. Qed.

Lemma contains_spec (s kw : string) :
  contains s kw = true ↔ is_substring kw s.
Proof.
  unfold contains, is_substring. rewrite bool_decide_eq_true. split.
  - induction s as [|c s IH]; rewrite string_find_unfold;
      destruct (String.prefix kw _) eqn:E.
    + intros _. apply prefix_spec in E as [post ->]. by exists "", post.
    + by intros [? ?].
    + intros _. apply prefix_spec in E as [post ->]. by exists "", post.
    + intros Hs. destruct (string_find s kw) eqn:Ef; [|by destruct Hs].
      destruct IH as (pre & post & ->); [by eauto|].
      by exists (String c pre), post.
  - intros (pre & post & ->). induction pre as [|c pre IH].
    + rewrite append_nil_l, string_find_unfold.
      assert (String.prefix kw (kw +:+ post) = true) as ->; [|by eauto].
      apply prefix_spec. eauto.
    + rewrite append_cons, string_find_unfold.
      destruct (String.prefix kw _); [by eauto|].
      destruct IH as [n ->]. by eauto.
Qed.

(** ** Search *)

Lemma keyword_matchesb_spec (kw : string) (s : Student) :
  keyword_matchesb kw s = true ↔ keyword_matches kw s.
Proof.
  unfold keyword_matchesb, keyword_matches.
  rewrite !orb_true_iff, !contains_spec, existsb_exists.
  setoid_rewrite contains_spec. setoid_rewrite <- list_elem_of_In.
  naive_solver.
Qed.

Lemma search_courses_existsb kw s codes st :
  search_courses kw s codes st =
    if existsb (λ code, contains code kw) codes
    then (st.1 +:+ student_line s, true) else st.
Proof.
  induction codes as [|code codes IH]; simpl; [done|].
  destruct (contains code kw); [done | apply IH].
Qed.

Lemma search_step_matchesb kw st s :
  search_step kw st s =
    if keyword_matchesb kw s then (st.1 +:+ student_line s, true) else st.
Proof.
  unfold search_step, keyword_matchesb. rewrite search_courses_existsb.
  by destruct (contains (name s) kw || contains (studentID s) kw).
Qed.

Lemma search_loop kw out found v :
  foldl (search_step kw) (out, found) v =
    (out +:+ concat_strings (student_line <$> filter (λ s, keyword_matchesb kw s) v),
     found || bool_decide (filter (λ s, keyword_matchesb kw s) v ≠ [])).
Proof.
  revert out found. induction v as [|s v IH]; intros out found; simpl.
  - by rewrite append_nil_r, orb_false_r.
  - rewrite search_step_matchesb, filter_cons.
    destruct (decide (keyword_matchesb kw s)) as [Hm|Hm].
    + apply Is_true_true in Hm. rewrite Hm, IH. cbn [fst]. rewrite orb_true_l.
      rewrite bool_decide_eq_true_2, orb_true_r by done.
      rewrite fmap_cons. cbn [concat_strings foldr].
      by rewrite append_assoc.
    + apply Is_true_false in Hm. rewrite Hm. apply IH.
Qed.

(** C7. Search semantics: [searchStudent] prints, after its banner, the
    line of exactly those students whose name, id or some enrolled course
    code contains the keyword (byte for byte, so case-sensitively), one line
    each, in the order of the collection; when there is none it prints the
    "No matching student found." notice and nothing else. *)
Theorem search_semantics (kw : string) (sm : StudentManagement) :
  (∀ s, keyword_matchesb kw s = true ↔ keyword_matches kw s) ∧
  searchStudent kw sm =
    search_banner kw
      +:+ concat_strings
            (student_line <$> filter (λ s, keyword_matchesb kw s) (students sm))
      +:+ (if bool_decide (filter (λ s, keyword_matchesb kw s) (students sm) = [])
           then no_match_line else "").
Proof.
  split; [apply keyword_matchesb_spec|].
  unfold searchStudent. rewrite search_loop. simpl.
  destruct (filter _ (students sm)) as [|h hits].
  - simpl. by rewrite append_nil_r.
  - rewrite bool_decide_eq_true_2 by done. rewrite bool_decide_eq_false_2 by done.
    by rewrite append_nil_r.
Qed.

(** ** Course report *)

Lemma report_step_getStudent sm out id :
  report_step sm out id =
    match getStudent sm id with
    | Some s => out +:+ report_line s +:+ endl
    | None => out
    end.
Proof.
  unfold report_step, getStudent.
  destruct (findStudentIndex sm id) as [sIdx|]; simpl; [|done].
  by destruct (students sm !! sIdx).
Qed.

Lemma report_loop sm out roster :
  foldl (report_step sm) out roster =
    out +:+ concat_strings
              ((λ s, report_line s +:+ endl) <$> omap (getStudent sm) roster).
Proof.
  revert out. induction roster as [|id roster IH]; intros out.
  - simpl. by rewrite append_nil_r.
  - cbn [foldl omap list_omap]. rewrite IH, report_step_getStudent.
    destruct (getStudent sm id) as [s|]; [|done].
    rewrite fmap_cons. cbn [concat_strings foldr].
    by rewrite !append_assoc.
Qed.

(** C8. Course report: for a code that is not in the registry the call
    reports [NotFound] and leaves the files as they were; for a present code
    (and a report file that can be opened) it writes, under the path derived
    from the code, the header [StudentID,Name,Type] followed by one
    [id,name,type] line for each roster entry that the registry resolves to
    a student, in roster order. *)
Theorem course_report (code : string) (sm : StudentManagement)
    (fs : FileSystem) :
  (code ∉ courseCode <$> courses sm →
     generateReportForCourse code sm fs = (NotFound, fs)) ∧
  (∀ c, getCourse sm code = Some c → report_path code ∉ unwritable fs →
     generateReportForCourse code sm fs =
       (Success,
        mkFS (<[report_path code :=
                  report_header +:+ endl
                    +:+ concat_strings
                          ((λ s, report_line s +:+ endl)
                             <$> omap (getStudent sm) (enrolledStudentIDs c))]>
                (files fs))
             (unwritable fs))).
Proof.
  unfold generateReportForCourse. split.
  - intros Hn. apply findCourseIndex_None in Hn. by rewrite Hn.
  - intros c (cIdx & -> & -> & _)%getCourse_Some Hw.
    unfold write_file. rewrite bool_decide_eq_false_2 by done.
    by rewrite report_loop, append_assoc.
Qed.

(** ** Reading back what was written *)

Lemma free_of_append d a b :
  free_of d (a +:+ b) = free_of d a && free_of d b.
Proof.
  induction a as [|x a IH]; [done|].
  rewrite append_cons. cbn [free_of]. rewrite IH. by rewrite andb_assoc.
Qed.

Lemma take_until_delim d f r :
  free_of d f = true → take_until d (f +:+ String d r) = (f, r).
Proof.
  induction f as [|x f IH]; intros Hf.
  - rewrite append_nil_l. cbn [take_until]. by rewrite Ascii.eqb_refl.
  - rewrite append_cons. cbn [take_until free_of] in *.
    apply andb_true_iff in Hf as [Hx Hf].
    apply negb_true_iff in Hx. rewrite Hx, (IH Hf). done.
Qed.

Lemma take_until_end d f :
  free_of d f = true → take_until d f = (f, "").
Proof.
  induction f as [|x f IH]; intros Hf; [done|].
  cbn [take_until free_of] in *.
  apply andb_true_iff in Hf as [Hx Hf].
  apply negb_true_iff in Hx. rewrite Hx, (IH Hf). done.
Qed.

Lemma append_delim_not_empty f d r : f +:+ String d r ≠ "".
Proof. by destruct f. Qed.

Lemma getline_delim d f r :
  free_of d f = true → getline d (f +:+ String d r) = Some (f, r).
Proof.
  intros Hf. unfold getline.
  destruct (f +:+ String d r) eqn:E; [by apply append_delim_not_empty in E|].
  rewrite <- E. by rewrite take_until_delim.
Qed.

Lemma getline_field_delim d f r :
  free_of d f = true → getline_field d (f +:+ String d r) = (f, r).
Proof. intros Hf. unfold getline_field. by rewrite getline_delim. Qed.

Lemma getline_field_end d f :
  free_of d f = true → getline_field d f = (f, "").
Proof.
  intros Hf. unfold getline_field, getline. destruct f as [|x f]; [done|].
  by rewrite take_until_end.
Qed.

Lemma length_cons x s : String.length (String x s) = S (String.length s).
Proof. reflexivity. Qed.

Lemma take_until_length d s :
  String.length (take_until d s).2 ≤ String.length s.
Proof.
  induction s as [|x s IH]; [done|]. cbn [take_until]. rewrite length_cons.
  destruct (Ascii.eqb x d); cbn [snd]; [lia|].
  destruct (take_until d s) as [f r]. cbn [snd] in *. lia.
Qed.

Lemma getline_shorter d s f r :
  getline d s = Some (f, r) → String.length r < String.length s.
Proof.
  destruct s as [|x s]; [done|]. unfold getline. intros [= H].
  rewrite length_cons. cbn [take_until] in H. destruct (Ascii.eqb x d).
  - injection H as _ <-. lia.
  - pose proof (take_until_length d s) as Hl.
    destruct (take_until d s) as [f' r']. injection H as _ <-.
    cbn [snd] in Hl. lia.
Qed.

(** The fuel of [getline_all] is never exhausted: more fuel reads the same
    fields. *)
Lemma getline_loop_fuel d n s :
  String.length s ≤ n → getline_loop n d s = getline_loop (String.length s) d s.
Proof.
  revert s. induction (lt_wf n) as [n _ IH]. intros s Hn.
  destruct s as [|x s].
  - by destruct n.
  - rewrite length_cons in *. destruct n as [|n]; [lia|].
    cbn [getline_loop].
    destruct (getline d (String x s)) as [[f r]|] eqn:E; [|done].
    apply getline_shorter in E. rewrite length_cons in E. f_equal.
    rewrite (IH n) by lia. symmetry. apply IH; lia.
Qed.

Lemma getline_all_unfold d s :
  getline_all d s =
    match getline d s with
    | None => []
    | Some (f, r) => f :: getline_all d r
    end.
Proof.
  unfold getline_all. destruct s as [|x s]; [done|].
  rewrite length_cons. cbn [getline_loop].
  destruct (getline d (String x s)) as [[f r]|] eqn:E; [|done].
  apply getline_shorter in E. rewrite length_cons in E. f_equal.
  apply getline_loop_fuel. lia.
Qed.

Lemma getline_all_delim d f r :
  free_of d f = true → getline_all d (f +:+ String d r) = f :: getline_all d r.
Proof. intros Hf. by rewrite getline_all_unfold, getline_delim. Qed.

Lemma getline_all_last d f :
  free_of d f = true → f ≠ "" → getline_all d f = [f].
Proof.
  intros Hf Hne. rewrite getline_all_unfold. unfold getline.
  destruct f as [|x f]; [done|]. by rewrite take_until_end.
Qed.

Lemma getline_all_join v :
  Forall (λ x, free_of semicolon x && free_of nl x = true) v →
  v ≠ [] → last v ≠ Some "" →
  getline_all semicolon (join_semicolon v) = v.
Proof.
  induction v as [|x v IH]; intros Hsafe Hne Hlast; [done|].
  apply Forall_cons in Hsafe as [[Hx _]%andb_true_iff Hsafe].
  destruct v as [|y v].
  - cbn [join_semicolon]. apply getline_all_last; [done|].
    intros ->. by apply Hlast.
  - cbn [join_semicolon] in *. rewrite append_cons, append_nil_l.
    rewrite getline_all_delim by done. f_equal. by apply IH.
Qed.

Lemma join_semicolon_empty v :
  last v ≠ Some "" → join_semicolon v = "" → v = [].
Proof.
  destruct v as [|x v]; [done|]. intros Hlast. destruct v as [|y v].
  - cbn. intros ->. by destruct Hlast.
  - cbn [join_semicolon]. rewrite append_cons, append_nil_l.
    intros H. by apply append_delim_not_empty in H.
Qed.

Lemma free_of_join_nl v :
  Forall (λ x, free_of semicolon x && free_of nl x = true) v →
  free_of nl (join_semicolon v) = true.
Proof.
  induction v as [|x v IH]; intros Hsafe; [done|].
  apply Forall_cons in Hsafe as [[_ Hx]%andb_true_iff Hsafe].
  destruct v as [|y v]; [done|].
  cbn [join_semicolon] in *. rewrite !free_of_append, Hx, (IH Hsafe). done.
Qed.

Lemma getline_all_lines {A} (body : A → string) (rows : list A) :
  Forall (λ a, free_of nl (body a) = true) rows →
  getline_all nl (foldr (λ a out, body a +:+ String nl out) "" rows) = body <$> rows.
Proof.
  induction rows as [|a rows IH]; intros Hsafe; [done|].
  apply Forall_cons in Hsafe as [Ha Hsafe]. cbn [foldr].
  rewrite getline_all_delim by done. rewrite fmap_cons. f_equal. by apply IH.
Qed.

Section keyed_append.
Context {A : Type} (key : A → string).

Lemma find_index_app_last (pre : list A) (a : A) :
  key a ∉ key <$> pre →
  find_index (has_key key (key a)) (pre ++ [a]) = Some (length pre).
Proof.
  induction pre as [|x pre IH]; intros Hfresh.
  - cbn [app find_index]. unfold has_key. by rewrite bool_decide_eq_true_2.
  - rewrite fmap_cons in Hfresh. apply not_elem_of_cons in Hfresh as [Hne Hfresh].
    cbn [app find_index]. unfold has_key at 1.
    rewrite bool_decide_eq_false_2 by done. by rewrite (IH Hfresh).
Qed.

Lemma alter_app_last (f : A → A) (pre : list A) (a : A) :
  alter f (length pre) (pre ++ [a]) = pre ++ [f a].
Proof.
  rewrite alter_app_r_alt by done. by rewrite Nat.sub_diag.
Qed.
End keyed_append.

Lemma foldl_push_back_unique (acc v : list string) :
  NoDup (acc ++ v) →
  foldl (λ a x, push_back_unique x a) acc v = acc ++ v.
Proof.
  revert acc. induction v as [|x v IH]; intros acc Hnd.
  - by rewrite app_nil_r.
  - cbn [foldl]. unfold push_back_unique at 2.
    rewrite bool_decide_eq_false_2.
    + rewrite IH; rewrite <- app_assoc; done.
    + apply NoDup_app in Hnd as (_ & Hd & _). intros Hx.
      apply (Hd x Hx). by left.
Qed.

Lemma load_student_codes nm id k tr pre cs v :
  id ∉ studentID <$> pre →
  foldl (load_student_code id) (mkSM (pre ++ [mkStudent nm id k tr]) cs) v =
    mkSM (pre ++ [mkStudent nm id k (foldl (λ a x, push_back_unique x a) tr v)]) cs.
Proof.
  intros Hfresh. revert tr. induction v as [|x v IH]; intros tr; [done|].
  cbn [foldl]. rewrite <- IH. f_equal.
  unfold load_student_code, findStudentIndex. fields.
  pose proof (find_index_app_last studentID pre (mkStudent nm id k tr) Hfresh)
    as Hfind.
  cbn [studentID] in Hfind. rewrite Hfind. by rewrite alter_app_last.
Qed.

Lemma load_course_ids cname code ro pre ss v :
  code ∉ courseCode <$> pre →
  foldl (load_course_id code) (mkSM ss (pre ++ [mkCourse cname code ro])) v =
    mkSM ss (pre ++ [mkCourse cname code (foldl (λ a x, push_back_unique x a) ro v)]).
Proof.
  intros Hfresh. revert ro. induction v as [|x v IH]; intros ro; [done|].
  cbn [foldl]. rewrite <- IH. f_equal.
  unfold load_course_id, findCourseIndex. fields.
  pose proof (find_index_app_last courseCode pre (mkCourse cname code ro) Hfresh)
    as Hfind.
  cbn [courseCode] in Hfind. rewrite Hfind. by rewrite alter_app_last.
Qed.

Lemma getType_free d k : d = comma ∨ d = nl → free_of d (getType k) = true.
Proof. by intros [-> | ->]; destruct k. Qed.

Lemma addStudent_fresh nm id k pre cs :
  id ∉ studentID <$> pre →
  addStudent nm id (getType k) (mkSM pre cs) =
    (Success, mkSM (pre ++ [mkStudent nm id k []]) cs).
Proof.
  intros Hfresh. unfold addStudent.
  apply (findStudentIndex_None (mkSM pre cs)) in Hfresh. rewrite Hfresh.
  by destruct k.
Qed.

Lemma addCourse_fresh cname code ss pre :
  code ∉ courseCode <$> pre →
  addCourse cname code (mkSM ss pre) =
    (Success, mkSM ss (pre ++ [mkCourse cname code []])).
Proof.
  intros Hfresh. unfold addCourse.
  apply (findCourseIndex_None (mkSM ss pre)) in Hfresh. by rewrite Hfresh.
Qed.

Lemma student_body_shape s :
  student_body s =
    studentID s +:+ String comma (name s +:+ String comma
      (getType (kind s) +:+ String comma (join_semicolon (enrolledCourses s)))).
Proof. reflexivity. Qed.

Lemma course_body_shape c :
  course_body c =
    courseCode c +:+ String comma (courseName c +:+ String comma
      (join_semicolon (enrolledStudentIDs c))).
Proof. reflexivity. Qed.

Lemma load_student_line_body pre cs s :
  studentID s ∉ studentID <$> pre → student_safe s →
  load_student_line (mkSM pre cs) (student_body s) = mkSM (pre ++ [s]) cs.
Proof.
  intros Hfresh ([Hidc _]%andb_true_iff & [Hnmc _]%andb_true_iff & Hsafe & Hlast & Hnd).
  destruct s as [nm id k tr]. fields.
  unfold load_student_line. rewrite student_body_shape. fields.
  rewrite bool_decide_eq_false_2 by apply append_delim_not_empty.
  rewrite !getline_field_delim by (done || apply getType_free; by left).
  rewrite getline_field_end by by apply free_of_join_nl.
  rewrite addStudent_fresh by done. cbn [snd].
  case_bool_decide as Hempty.
  - by rewrite (join_semicolon_empty tr Hlast Hempty).
  - assert (tr ≠ []) as Hne by (by intros ->).
    rewrite getline_all_join by done. rewrite load_student_codes by done.
    by rewrite foldl_push_back_unique.
Qed.

Lemma load_course_line_body ss pre c :
  courseCode c ∉ courseCode <$> pre → course_safe c →
  load_course_line (mkSM ss pre) (course_body c) = mkSM ss (pre ++ [c]).
Proof.
  intros Hfresh ([Hidc _]%andb_true_iff & [Hnmc _]%andb_true_iff & Hsafe & Hlast & Hnd).
  destruct c as [cname code ro]. fields.
  unfold load_course_line. rewrite course_body_shape. fields.
  rewrite bool_decide_eq_false_2 by apply append_delim_not_empty.
  rewrite !getline_field_delim by done.
  rewrite getline_field_end by by apply free_of_join_nl.
  rewrite addCourse_fresh by done. cbn [snd].
  case_bool_decide as Hempty.
  - by rewrite (join_semicolon_empty ro Hlast Hempty).
  - assert (ro ≠ []) as Hne by (by intros ->).
    rewrite getline_all_join by done. rewrite load_course_ids by done.
    by rewrite foldl_push_back_unique.
Qed.

Lemma load_student_lines pre cs v :
  NoDup (studentID <$> pre ++ v) → Forall student_safe v →
  foldl load_student_line (mkSM pre cs) (student_body <$> v) = mkSM (pre ++ v) cs.
Proof.
  revert pre. induction v as [|s v IH]; intros pre Hnd Hsafe.
  - by rewrite app_nil_r.
  - apply Forall_cons in Hsafe as [Hs Hsafe].
    rewrite fmap_cons. cbn [foldl].
    rewrite load_student_line_body; [|  |done].
    + rewrite IH; [by rewrite <- app_assoc | by rewrite <- app_assoc | done].
    + rewrite fmap_app, fmap_cons in Hnd.
      apply NoDup_app in Hnd as (_ & Hd & _). intros Hin.
      apply (Hd _ Hin). by left.
Qed.

Lemma load_course_lines ss pre v :
  NoDup (courseCode <$> pre ++ v) → Forall course_safe v →
  foldl load_course_line (mkSM ss pre) (course_body <$> v) = mkSM ss (pre ++ v).
Proof.
  revert pre. induction v as [|c v IH]; intros pre Hnd Hsafe.
  - by rewrite app_nil_r.
  - apply Forall_cons in Hsafe as [Hc Hsafe].
    rewrite fmap_cons. cbn [foldl].
    rewrite load_course_line_body; [|  |done].
    + rewrite IH; [by rewrite <- app_assoc | by rewrite <- app_assoc | done].
    + rewrite fmap_app, fmap_cons in Hnd.
      apply NoDup_app in Hnd as (_ & Hd & _). intros Hin.
      apply (Hd _ Hin). by left.
Qed.

(** ** Save, then load *)

Lemma student_row_body s out :
  student_row s +:+ out = student_body s +:+ String nl out.
Proof. unfold student_row, student_body, endl. by rewrite !append_assoc. Qed.

Lemma course_row_body c out :
  course_row c +:+ out = course_body c +:+ String nl out.
Proof. unfold course_row, course_body, endl. by rewrite !append_assoc. Qed.

Lemma students_csv_shape sm :
  students_csv sm =
    students_header
      +:+ String nl (foldr (λ s out, student_body s +:+ String nl out) "" (students sm)).
Proof.
  unfold students_csv, endl. rewrite append_cons, append_nil_l. do 2 f_equal.
  induction (students sm) as [|s v IH]; [done|].
  cbn [foldr]. by rewrite IH, student_row_body.
Qed.

Lemma courses_csv_shape sm :
  courses_csv sm =
    courses_header
      +:+ String nl (foldr (λ c out, course_body c +:+ String nl out) "" (courses sm)).
Proof.
  unfold courses_csv, endl. rewrite append_cons, append_nil_l. do 2 f_equal.
  induction (courses sm) as [|c v IH]; [done|].
  cbn [foldr]. by rewrite IH, course_row_body.
Qed.

Lemma student_body_free_nl s : student_safe s → free_of nl (student_body s) = true.
Proof.
  intros ([_ Hid]%andb_true_iff & [_ Hnm]%andb_true_iff & Hsafe & _).
  unfold student_body. rewrite !free_of_append, Hid, Hnm.
  rewrite (getType_free nl) by by right.
  by rewrite free_of_join_nl.
Qed.

Lemma course_body_free_nl c : course_safe c → free_of nl (course_body c) = true.
Proof.
  intros ([_ Hid]%andb_true_iff & [_ Hnm]%andb_true_iff & Hsafe & _).
  unfold course_body. rewrite !free_of_append, Hid, Hnm.
  by rewrite free_of_join_nl.
Qed.

Lemma students_csv_lines sm :
  Forall student_safe (students sm) →
  tail (getline_all nl (students_csv sm)) = student_body <$> students sm.
Proof.
  intros Hsafe. rewrite students_csv_shape, getline_all_delim by done.
  cbn [tail]. apply getline_all_lines.
  eapply Forall_impl; [exact Hsafe|]. apply student_body_free_nl.
Qed.

Lemma courses_csv_lines sm :
  Forall course_safe (courses sm) →
  tail (getline_all nl (courses_csv sm)) = course_body <$> courses sm.
Proof.
  intros Hsafe. rewrite courses_csv_shape, getline_all_delim by done.
  cbn [tail]. apply getline_all_lines.
  eapply Forall_impl; [exact Hsafe|]. apply course_body_free_nl.
Qed.

Lemma paths_distinct : students_path ≠ courses_path.
Proof. done. Qed.

Lemma saveData_writable sm fs :
  students_path ∉ unwritable fs → courses_path ∉ unwritable fs →
  saveData sm fs =
    mkFS (<[courses_path := courses_csv sm]>
            (<[students_path := students_csv sm]> (files fs)))
         (unwritable fs).
Proof.
  intros Hs Hc. unfold saveData, exportCoursesToCSV, exportStudentsToCSV, write_file.
  rewrite (bool_decide_eq_false_2 _ Hs). cbn [snd unwritable files].
  by rewrite (bool_decide_eq_false_2 _ Hc).
Qed.

Lemma loadData_saved sm fs :
  codec_safe sm →
  files fs !! students_path = Some (students_csv sm) →
  files fs !! courses_path = Some (courses_csv sm) →
  loadData fs emptySM = sm.
Proof.
  intros ((Hns & Hnc) & Hss & Hcs) Hfs Hfc.
  unfold loadData, loadStudentsFromCSV, loadCoursesFromCSV. rewrite Hfs, Hfc.
  rewrite students_csv_lines, courses_csv_lines by done.
  unfold emptySM. rewrite load_student_lines by done.
  rewrite load_course_lines by done. by destruct sm.
Qed.

Lemma load_after_save sm fs :
  codec_safe sm →
  students_path ∉ unwritable fs → courses_path ∉ unwritable fs →
  loadData (saveData sm fs) emptySM = sm.
Proof.
  intros Hsafe Hs Hc.
  apply loadData_saved; [done|..]; rewrite saveData_writable by done;
    cbn [files].
  - rewrite lookup_insert_ne by (symmetry; apply paths_distinct).
    apply lookup_insert_eq.
  - apply lookup_insert_eq.
Qed.

Lemma same_content_refl sm : same_content sm sm.
Proof. by repeat split. Qed.

(** C2 (amended). Round trip through the text codec, for the registries the
    format can carry: when keys are unique, no key or name holds a comma or
    a line break, and no cross-reference list holds a semicolon or a line
    break in an entry, an empty last entry or a repeated entry, loading the
    two saved files into an empty registry gives back the registry itself,
    hence the same student ids, course codes, enrolment pairs, names and
    kinds. *)
Theorem round_trip_codec_safe (sm : StudentManagement) (fs : FileSystem) :
  codec_safe sm →
  students_path ∉ unwritable fs → courses_path ∉ unwritable fs →
  loadData (saveData sm fs) emptySM = sm ∧
  same_content sm (loadData (saveData sm fs) emptySM).
Proof.
  intros Hsafe Hs Hc.
  pose proof (load_after_save sm fs Hsafe Hs Hc) as Heq.
  split; [done|]. rewrite Heq. apply same_content_refl.
Qed.

Lemma round_trip_codec_safe_witness :
  codec_safe dummy ∧
  loadData (saveData dummy fresh_fs) emptySM = dummy ∧
  same_content dummy (loadData (saveData dummy fresh_fs) emptySM).
Proof.
  assert (codec_safe dummy) as Hsafe by compute_done.
  split; [exact Hsafe|].
  apply (round_trip_codec_safe dummy fresh_fs Hsafe); compute_done.
Defined.

(** Without those conditions the round trip loses data: a name with a
    comma shifts the fields of its row, the type read back is not a student
    type, and the student is dropped by the load. *)
Lemma round_trip_comma_name_lost :
  ¬ same_content comma_name (loadData (saveData comma_name fresh_fs) emptySM).
Proof.
  intros (Hids & _).
  assert (loadData (saveData comma_name fresh_fs) emptySM = emptySM) as Heq
    by (vm_compute; reflexivity).
  rewrite Heq in Hids. specialize (Hids "S001").
  assert ("S001" ∈ studentID <$> students comma_name) as Hin by compute_done.
  apply Hids in Hin. by apply not_elem_of_nil in Hin.
Qed.

(** ** Saving twice *)

Lemma write_file_twice path content fs :
  (write_file path content (write_file path content fs).2).2 =
    (write_file path content fs).2.
Proof.
  unfold write_file. destruct (bool_decide (path ∈ unwritable fs)) eqn:Hw;
    cbn [snd unwritable files]; rewrite Hw; cbn [snd]; [done|].
  by rewrite insert_insert_eq.
Qed.

Lemma write_file_commute p1 c1 p2 c2 fs :
  p1 ≠ p2 →
  (write_file p1 c1 (write_file p2 c2 fs).2).2 =
    (write_file p2 c2 (write_file p1 c1 fs).2).2.
Proof.
  intros Hne. unfold write_file.
  destruct (bool_decide (p1 ∈ unwritable fs)) eqn:E1,
    (bool_decide (p2 ∈ unwritable fs)) eqn:E2;
    cbn [snd unwritable files]; rewrite ?E1, ?E2; cbn [snd]; try done.
  f_equal. by apply insert_insert_ne.
Qed.

Lemma saveData_twice sm fs : saveData sm (saveData sm fs) = saveData sm fs.
Proof.
  unfold saveData, exportStudentsToCSV, exportCoursesToCSV.
  rewrite (write_file_commute students_path _ courses_path) by apply paths_distinct.
  by rewrite !write_file_twice.
Qed.

(** C6 (amended). Idempotent save: saving twice with nothing in between
    leaves the files exactly as the first save left them, for every
    registry; and for the registries the format can carry (see C2), saving,
    loading into an empty registry and saving again writes byte for byte
    what the first save wrote, whatever files it is written over. *)
Theorem save_idempotent (sm : StudentManagement) (fs : FileSystem) :
  saveData sm (saveData sm fs) = saveData sm fs ∧
  (codec_safe sm →
   students_path ∉ unwritable fs → courses_path ∉ unwritable fs →
   students_csv (loadData (saveData sm fs) emptySM) = students_csv sm ∧
   courses_csv (loadData (saveData sm fs) emptySM) = courses_csv sm ∧
   ∀ fs', saveData (loadData (saveData sm fs) emptySM) fs' = saveData sm fs').
Proof.
  split; [apply saveData_twice|]. intros Hsafe Hs Hc.
  by rewrite (load_after_save sm fs Hsafe Hs Hc).
Qed.

Lemma save_idempotent_witness :
  codec_safe dummy ∧
  students_csv (loadData (saveData dummy fresh_fs) emptySM) = students_csv dummy ∧
  courses_csv (loadData (saveData dummy fresh_fs) emptySM) = courses_csv dummy.
Proof.
  assert (codec_safe dummy) as Hsafe by compute_done.
  assert (students_path ∉ unwritable fresh_fs) as Hs by compute_done.
  assert (courses_path ∉ unwritable fresh_fs) as Hc by compute_done.
  destruct (save_idempotent dummy fresh_fs) as [_ H].
  destruct (H Hsafe Hs Hc) as (H1 & H2 & _).
  exact (conj Hsafe (conj H1 H2)).
Defined.

(** Without those conditions a second save can differ: the registry with
    a comma in a name is saved, loaded (the student is dropped) and saved
    again, and the second students file holds the header only. *)
Lemma save_load_save_differs :
  files (saveData (loadData (saveData comma_name fresh_fs) emptySM) fresh_fs)
    !! students_path
  ≠ files (saveData comma_name fresh_fs) !! students_path.
Proof. vm_compute. discriminate. Qed.

(** ** Loading does not check cross-references *)

Lemma addStudent_frame nm id type ss cs :
  (addStudent nm id type (mkSM ss cs)).2 =
    mkSM (students (addStudent nm id type (mkSM ss [])).2) cs.
Proof.
  unfold addStudent, findStudentIndex. cbn [students courses].
  destruct (find_index (has_key studentID id) ss); [done|].
  by repeat case_bool_decide.
Qed.

Lemma load_student_code_frame id ss cs code :
  load_student_code id (mkSM ss cs) code =
    mkSM (students (load_student_code id (mkSM ss []) code)) cs.
Proof.
  unfold load_student_code, findStudentIndex. cbn [students courses].
  by destruct (find_index (has_key studentID id) ss).
Qed.

Lemma foldl_frame {X : Type} (g : StudentManagement → X → StudentManagement)
    (v : list X) :
  (∀ ss cs x, g (mkSM ss cs) x = mkSM (students (g (mkSM ss []) x)) cs) →
  ∀ ss cs, foldl g (mkSM ss cs) v = mkSM (students (foldl g (mkSM ss []) v)) cs.
Proof.
  intros Hg. induction v as [|x v IH]; intros ss cs; [done|].
  cbn [foldl]. rewrite (Hg ss cs x), IH. symmetry.
  rewrite (Hg ss [] x), (IH _ []). done.
Qed.

Lemma load_student_line_frame ss cs line :
  load_student_line (mkSM ss cs) line =
    mkSM (students (load_student_line (mkSM ss []) line)) cs.
Proof.
  unfold load_student_line. case_bool_decide; [done|].
  destruct (getline_field comma line) as [id r1].
  destruct (getline_field comma r1) as [nm r2].
  destruct (getline_field comma r2) as [type r3].
  destruct (getline_field nl r3) as [coursesStr r4].
  rewrite (addStudent_frame nm id type ss cs), (addStudent_frame nm id type ss []).
  case_bool_decide; [done|].
  rewrite (foldl_frame (load_student_code id)); [|apply load_student_code_frame].
  symmetry.
  rewrite (foldl_frame (load_student_code id)); [|apply load_student_code_frame].
  done.
Qed.

Lemma load_student_codes_all id codes sm s :
  getStudent sm id = Some s →
  ∃ s', getStudent (foldl (load_student_code id) sm codes) id = Some s' ∧
        ∀ x, x ∈ enrolledCourses s ∨ x ∈ codes → x ∈ enrolledCourses s'.
Proof.
  revert sm s. induction codes as [|code codes IH]; intros sm s Hs.
  - exists s. split; [done|]. intros x [Hx | Hx]; [done|].
    by apply not_elem_of_nil in Hx.
  - cbn [foldl].
    destruct (getStudent_Some _ _ _ Hs) as (sIdx & E & _).
    assert (getStudent (load_student_code id sm code) id
            = Some (Student_addCourse code s)) as Hs1.
    { unfold load_student_code. rewrite E.
      rewrite (getStudent_alter sm _ _ _ id) by done. by rewrite Hs. }
    destruct (IH _ _ Hs1) as (s' & Hs' & Hall). exists s'. split; [done|].
    intros x Hx. apply Hall. fields. rewrite elem_of_push_back_unique.
    rewrite elem_of_cons in Hx. naive_solver.
Qed.

(** C10. Load performs no cross-reference validation: what
    [loadStudentsFromCSV] makes of the students does not depend on the
    courses the registry holds (and it leaves them alone); every code split
    from a row is put on the list of the row's student; so the files of
    [dangling_fs] load into a registry in which S001 lists CSE999 while no
    course has that code, and referential symmetry fails. *)
Theorem load_no_cross_reference_validation :
  (∀ fs ss cs,
     loadStudentsFromCSV fs (mkSM ss cs) =
       mkSM (students (loadStudentsFromCSV fs (mkSM ss []))) cs) ∧
  (∀ sm id codes, is_Some (getStudent sm id) →
     ∃ s', getStudent (foldl (load_student_code id) sm codes) id = Some s' ∧
           ∀ code, code ∈ codes → code ∈ enrolledCourses s') ∧
  (∃ s, getStudent (loadData dangling_fs emptySM) "S001" = Some s ∧
        "CSE999" ∈ enrolledCourses s ∧
        "CSE999" ∉ courseCode <$> courses (loadData dangling_fs emptySM)) ∧
  ¬ referential_symmetry (loadData dangling_fs emptySM).
Proof.
  assert (loadData dangling_fs emptySM =
          mkSM [mkStudent "Alice Johnson" "S001" Undergraduate ["CSE999"]] [])
    as Hload by (vm_compute; reflexivity).
  split_and!.
  - intros fs ss cs. unfold loadStudentsFromCSV.
    destruct (files fs !! students_path); [|done].
    apply foldl_frame. apply load_student_line_frame.
  - intros sm id codes [s Hs].
    destruct (load_student_codes_all id codes sm s Hs) as (s' & Hs' & Hall).
    exists s'. split; [done|]. intros code Hcode. apply Hall. by right.
  - rewrite Hload. eexists. split; [reflexivity|]. split; compute_done.
  - rewrite Hload. intros (Hc & _).
    destruct (Hc (mkStudent "Alice Johnson" "S001" Undergraduate ["CSE999"]) "CSE999")
      as (c & Hin & _); [compute_done.. |].
    by apply not_elem_of_nil in Hin.
Qed.

(** ** Instances of the properties on the sample data *)

Lemma cascade_on_delete_witness :
  "S005" ∈ studentID <$> students dummy ∧
  (∀ c', c' ∈ courses (removeStudent "S005" dummy).2 →
         "S005" ∉ enrolledStudentIDs c') ∧
  "CSE101" ∈ courseCode <$> courses dummy ∧
  (∀ s', s' ∈ students (removeCourse "CSE101" dummy).2 →
         "CSE101" ∉ enrolledCourses s').
Proof.
  assert ("S005" ∈ studentID <$> students dummy) as Hs by compute_done.
  assert ("CSE101" ∈ courseCode <$> courses dummy) as Hc by compute_done.
  destruct (cascade_on_delete dummy) as [Hstu Hcou].
  destruct (Hstu "S005" Hs) as (? & ? & _ & _ & _ & _ & _ & Hgone & _).
  destruct (Hcou "CSE101" Hc) as (? & ? & _ & _ & _ & _ & _ & Hgone' & _).
  exact (conj Hs (conj Hgone (conj Hc Hgone'))).
Defined.

Lemma enroll_semantics_witness :
  enrollStudentInCourse "S009" "CSE101" dummy = (NotFound, dummy) ∧
  enrollStudentInCourse "S001" "CSE102" dummy = (AlreadyEnrolled, dummy) ∧
  (let sm1 := (enrollStudentInCourse "S002" "CSE102" dummy).2 in
   enrollStudentInCourse "S002" "CSE102" sm1 = (AlreadyEnrolled, sm1)).
Proof.
  split_and!.
  - destruct (enroll_semantics "S009" "CSE101" dummy) as (H & _).
    apply H. left. compute_done.
  - destruct (enroll_semantics "S001" "CSE102" dummy) as (_ & H & _).
    apply (H (mkStudent "Alice Johnson" "S001" Undergraduate ["CSE101"; "CSE102"]));
      compute_done.
  - destruct (enroll_semantics "S002" "CSE102" dummy) as (_ & _ & _ & _ & H & _).
    destruct (H populateDummyData eq_refl) as (_ & Hagain & _); [compute_done|].
    exact Hagain.
Defined.

Lemma course_report_witness :
  generateReportForCourse "CSE999" dummy fresh_fs = (NotFound, fresh_fs) ∧
  files (generateReportForCourse "CSE102" dummy fresh_fs).2 !! report_path "CSE102"
    = Some (report_header +:+ endl
              +:+ "S001,Alice Johnson,Undergraduate" +:+ endl
              +:+ "S005,Eve Davis,Postgraduate" +:+ endl).
Proof.
  split.
  - destruct (course_report "CSE999" dummy fresh_fs) as (H & _).
    apply H. compute_done.
  - destruct (course_report "CSE102" dummy fresh_fs) as (_ & H).
    rewrite (H (mkCourse "Data Structures" "CSE102" ["S001"; "S005"]));
      [|compute_done..].
    cbn [snd files]. rewrite lookup_insert_eq. f_equal.
Defined.

(** * Further properties of the registry *)

(** ** Lookups after an insertion *)

Lemma find_index_app {A : Type} (p : A → bool) (v w : list A) :
  find_index p (v ++ w) =
    match find_index p v with
    | Some i => Some i
    | None => (λ j, length v + j) <$> find_index p w
    end.
Proof.
  induction v as [|x v IH]; cbn [app find_index length].
  - by destruct (find_index p w).
  - destruct (p x); [done|]. rewrite IH.
    destruct (find_index p v); [done|]. by destruct (find_index p w).
Qed.

Lemma getStudent_app_other sm new cs id :
  id ≠ studentID new →
  getStudent (mkSM (students sm ++ [new]) cs) id = getStudent sm id.
Proof.
  intros Hne. unfold getStudent, findStudentIndex. fields.
  rewrite find_index_app.
  destruct (find_index (has_key studentID id) (students sm)) as [i|] eqn:E.
  - cbn. destruct (find_index_key_Some studentID _ _ _ E) as (s & Hs & _).
    rewrite lookup_app_l; [done|]. by eapply lookup_lt_Some.
  - cbn [find_index]. unfold has_key at 1.
    rewrite bool_decide_eq_false_2 by done. done.
Qed.

Lemma getCourse_app_other sm new ss code :
  code ≠ courseCode new →
  getCourse (mkSM ss (courses sm ++ [new])) code = getCourse sm code.
Proof.
  intros Hne. unfold getCourse, findCourseIndex. fields.
  rewrite find_index_app.
  destruct (find_index (has_key courseCode code) (courses sm)) as [i|] eqn:E.
  - cbn. destruct (find_index_key_Some courseCode _ _ _ E) as (c & Hc & _).
    rewrite lookup_app_l; [done|]. by eapply lookup_lt_Some.
  - cbn [find_index]. unfold has_key at 1.
    rewrite bool_decide_eq_false_2 by done. done.
Qed.

Lemma getStudent_app_new sm new cs :
  studentID new ∉ studentID <$> students sm →
  getStudent (mkSM (students sm ++ [new]) cs) (studentID new) = Some new.
Proof.
  intros Hfresh. unfold getStudent, findStudentIndex. fields.
  rewrite (find_index_app_last studentID) by done. cbn.
  rewrite lookup_app_r by done. by rewrite Nat.sub_diag.
Qed.

Lemma getCourse_app_new sm new ss :
  courseCode new ∉ courseCode <$> courses sm →
  getCourse (mkSM ss (courses sm ++ [new])) (courseCode new) = Some new.
Proof.
  intros Hfresh. unfold getCourse, findCourseIndex. fields.
  rewrite (find_index_app_last courseCode) by done. cbn.
  rewrite lookup_app_r by done. by rewrite Nat.sub_diag.
Qed.

(** X1. [addCourse]: a code already in the collection is reported as
    [DuplicateKey] and nothing changes; a fresh code appends a course with
    that name and an empty roster after the existing ones, which a lookup by
    the code then finds, while lookups of other codes and the students are
    as before. *)
Theorem addCourse_semantics (cname code : string) (sm : StudentManagement) :
  (code ∈ courseCode <$> courses sm →
     addCourse cname code sm = (DuplicateKey, sm)) ∧
  (code ∉ courseCode <$> courses sm →
     addCourse cname code sm =
       (Success, mkSM (students sm) (courses sm ++ [mkCourse cname code []])) ∧
     getCourse (addCourse cname code sm).2 code = Some (mkCourse cname code []) ∧
     (∀ code', code' ≠ code →
        getCourse (addCourse cname code sm).2 code' = getCourse sm code')).
Proof.
  split.
  - intros Hin. unfold addCourse.
    destruct (findCourseIndex sm code) eqn:E; [done|].
    by apply findCourseIndex_None in E.
  - intros Hfresh. unfold addCourse.
    rewrite (proj2 (findCourseIndex_None sm code) Hfresh). cbn [snd].
    split_and!; [done | |].
    + by apply (getCourse_app_new sm (mkCourse cname code [])).
    + intros code' Hne. by apply getCourse_app_other.
Qed.

Lemma addCourse_semantics_witness :
  addCourse "Networks" "CSE101" dummy = (DuplicateKey, dummy) ∧
  getCourse (addCourse "Networks" "CSE105" dummy).2 "CSE105"
    = Some (mkCourse "Networks" "CSE105" []).
Proof.
  split.
  - apply (addCourse_semantics "Networks" "CSE101" dummy). compute_done.
  - apply (addCourse_semantics "Networks" "CSE105" dummy). compute_done.
Defined.

(** X2. [addStudent] with a fresh id and one of the two recognised types
    succeeds: it appends a record of the matching kind with the given name
    and no enrolments after the existing students, a lookup by the id then
    finds that record, and lookups of other ids and the courses are as
    before. *)
Theorem addStudent_inserts (nm id type : string) (sm : StudentManagement) :
  id ∉ studentID <$> students sm →
  type = "Undergraduate" ∨ type = "Postgraduate" →
  ∃ k, getType k = type ∧
    addStudent nm id type sm =
      (Success, mkSM (students sm ++ [mkStudent nm id k []]) (courses sm)) ∧
    getStudent (addStudent nm id type sm).2 id = Some (mkStudent nm id k []) ∧
    (∀ id', id' ≠ id →
       getStudent (addStudent nm id type sm).2 id' = getStudent sm id').
Proof.
  intros Hfresh Htype.
  assert (∃ k, getType k = type) as [k Hk].
  { destruct Htype as [-> | ->]; [by exists Undergraduate | by exists Postgraduate]. }
  exists k. split; [done|]. subst type.
  assert (addStudent nm id (getType k) sm =
          (Success, mkSM (students sm ++ [mkStudent nm id k []]) (courses sm))) as ->.
  { destruct sm as [ss cs]. by apply addStudent_fresh. }
  cbn [snd]. split_and!; [done | |].
  - by apply (getStudent_app_new sm (mkStudent nm id k [])).
  - intros id' Hne. by apply getStudent_app_other.
Qed.

Lemma addStudent_inserts_witness :
  ("S006" ∉ studentID <$> students dummy) ∧
  ∃ k, getType k = "Postgraduate" ∧
    getStudent (addStudent "Frank Moore" "S006" "Postgraduate" dummy).2 "S006"
      = Some (mkStudent "Frank Moore" "S006" k []).
Proof.
  assert ("S006" ∉ studentID <$> students dummy) as Hfresh by compute_done.
  split; [exact Hfresh|].
  destruct (addStudent_inserts "Frank Moore" "S006" "Postgraduate" dummy Hfresh
              (or_intror eq_refl)) as (k & Hk & _ & Hget & _).
  exists k. exact (conj Hk Hget).
Defined.

(** ** Removal *)

Lemma filter_key_absent {A : Type} (key : A → string) (v : list A) (k : string) :
  k ∉ key <$> v → filter (λ x, key x ≠ k) v = v.
Proof.
  induction v as [|y v IH]; intros Hk; [done|].
  rewrite fmap_cons, not_elem_of_cons in Hk. destruct Hk as [Hne Hk].
  rewrite filter_cons, decide_True by congruence. f_equal. by apply IH.
Qed.

Lemma delete_filter_key {A : Type} (key : A → string) (v : list A) (i : nat)
    (a : A) :
  NoDup (key <$> v) → v !! i = Some a →
  delete i v = filter (λ x, key x ≠ key a) v.
Proof.
  revert i. induction v as [|x v IH]; intros i Hnd Ha; [done|].
  rewrite fmap_cons, NoDup_cons in Hnd. destruct Hnd as [Hx Hnd].
  rewrite filter_cons. destruct i as [|i]; cbn in Ha.
  - injection Ha as ->. destruct (decide (key a ≠ key a)) as [Hd|_]; [done|].
    cbn. symmetry. by apply filter_key_absent.
  - assert (key x ≠ key a) as Hne.
    { intros Heq. apply Hx. rewrite Heq. apply list_elem_of_fmap.
      exists a. split; [done|]. by eapply list_elem_of_lookup_2. }
    rewrite decide_True by done. cbn. f_equal. by apply IH.
Qed.

(** X3. [removeStudent] and [removeCourse] on a key that is not in the
    collection report [NotFound] and change nothing; with unique keys, a
    successful removal leaves exactly the records with a different key, in
    their order, so the collection is one record shorter. *)
Theorem remove_semantics (sm : StudentManagement) :
  (∀ id, id ∉ studentID <$> students sm →
     removeStudent id sm = (NotFound, sm)) ∧
  (∀ code, code ∉ courseCode <$> courses sm →
     removeCourse code sm = (NotFound, sm)) ∧
  (∀ id, NoDup (studentID <$> students sm) → id ∈ studentID <$> students sm →
     students (removeStudent id sm).2
       = filter (λ s, studentID s ≠ id) (students sm) ∧
     S (length (students (removeStudent id sm).2)) = length (students sm)) ∧
  (∀ code, NoDup (courseCode <$> courses sm) → code ∈ courseCode <$> courses sm →
     courses (removeCourse code sm).2
       = filter (λ c, courseCode c ≠ code) (courses sm) ∧
     S (length (courses (removeCourse code sm).2)) = length (courses sm)).
Proof.
  split_and!.
  - intros id Hn. unfold removeStudent.
    by rewrite (proj2 (findStudentIndex_None sm id) Hn).
  - intros code Hn. unfold removeCourse.
    by rewrite (proj2 (findCourseIndex_None sm code) Hn).
  - intros id Hnd Hin.
    apply (find_index_key_is_Some studentID) in Hin as [sIdx E].
    fold (findStudentIndex sm id) in E.
    destruct (findStudentIndex_Some _ _ _ E) as (s & Hs & <-).
    rewrite (removeStudent_found _ _ _ E). cbn [snd students]. split.
    + by apply (delete_filter_key studentID).
    + rewrite length_delete by eauto.
      apply lookup_lt_Some in Hs. lia.
  - intros code Hnd Hin.
    apply (find_index_key_is_Some courseCode) in Hin as [cIdx E].
    fold (findCourseIndex sm code) in E.
    destruct (findCourseIndex_Some _ _ _ E) as (c & Hc & <-).
    rewrite (removeCourse_found _ _ _ E). cbn [snd courses]. split.
    + by apply (delete_filter_key courseCode).
    + rewrite length_delete by eauto.
      apply lookup_lt_Some in Hc. lia.
Qed.

Lemma remove_semantics_witness :
  removeStudent "S009" dummy = (NotFound, dummy) ∧
  removeCourse "CSE999" dummy = (NotFound, dummy) ∧
  students (removeStudent "S003" dummy).2
    = filter (λ s, studentID s ≠ "S003") (students dummy) ∧
  courses (removeCourse "CSE103" dummy).2
    = filter (λ c, courseCode c ≠ "CSE103") (courses dummy).
Proof.
  destruct (remove_semantics dummy) as (H1 & H2 & H3 & H4).
  split_and!.
  - apply H1. compute_done.
  - apply H2. compute_done.
  - apply H3; compute_done.
  - apply H4; compute_done.
Defined.

(** ** Unenrolment *)

Lemma removeStudentFromCourse_cases id code sm :
  match findStudentIndex sm id, findCourseIndex sm code with
  | Some sIdx, Some cIdx =>
      removeStudentFromCourse id code sm =
        (Success, mkSM (alter (Student_removeCourse code) sIdx (students sm))
                       (alter (Course_removeStudent id) cIdx (courses sm)))
  | _, _ => removeStudentFromCourse id code sm = (NotFound, sm)
  end.
Proof.
  unfold removeStudentFromCourse.
  destruct (findStudentIndex sm id), (findCourseIndex sm code); done.
Qed.

Lemma alter_fixed {A : Type} (f : A → A) (v : list A) (i : nat) (a : A) :
  v !! i = Some a → f a = a → alter f i v = v.
Proof.
  intros Ha Hf. rewrite <- (list_alter_id id v i) at 2 by done.
  apply list_alter_ext; [|done]. intros x Hx.
  assert (x = a) as -> by congruence. done.
Qed.

(** X4. [removeStudentFromCourse]: [NotFound] with nothing changed when the
    student id or the course code is absent; otherwise [Success], the code
    is filtered out of the student's list and the id out of the course's
    roster, both records staying in place, so that afterwards neither side
    holds the link. When the pair was not linked the call still reports
    [Success] and the registry is exactly as before. *)
Theorem unenroll_semantics (id code : string) (sm : StudentManagement) :
  (id ∉ studentID <$> students sm ∨ code ∉ courseCode <$> courses sm →
     removeStudentFromCourse id code sm = (NotFound, sm)) ∧
  (∀ s c, getStudent sm id = Some s → getCourse sm code = Some c →
     ∃ sIdx cIdx,
       students sm !! sIdx = Some s ∧ courses sm !! cIdx = Some c ∧
       removeStudentFromCourse id code sm =
         (Success,
          mkSM (<[sIdx := mkStudent (name s) (studentID s) (kind s)
                            (filter (λ x, x ≠ code) (enrolledCourses s))]>
                  (students sm))
               (<[cIdx := mkCourse (courseName c) (courseCode c)
                            (filter (λ x, x ≠ id) (enrolledStudentIDs c))]>
                  (courses sm))) ∧
       (∃ s', getStudent (removeStudentFromCourse id code sm).2 id = Some s' ∧
              code ∉ enrolledCourses s') ∧
       (∃ c', getCourse (removeStudentFromCourse id code sm).2 code = Some c' ∧
              id ∉ enrolledStudentIDs c')) ∧
  (∀ s c, getStudent sm id = Some s → getCourse sm code = Some c →
     code ∉ enrolledCourses s → id ∉ enrolledStudentIDs c →
     removeStudentFromCourse id code sm = (Success, sm)).
Proof.
  pose proof (removeStudentFromCourse_cases id code sm) as Hcases.
  split_and!.
  - intros [Hid | Hcode].
    + apply findStudentIndex_None in Hid. by rewrite Hid in Hcases.
    + apply findCourseIndex_None in Hcode. rewrite Hcode in Hcases.
      by destruct (findStudentIndex sm id).
  - intros s c Hs Hc.
    apply getStudent_Some in Hs as (sIdx & Es & Hls & _).
    apply getCourse_Some in Hc as (cIdx & Ec & Hlc & _).
    rewrite Es, Ec in Hcases. exists sIdx, cIdx. rewrite Hcases. cbn [snd].
    split_and!; try done.
    + f_equal. f_equal.
      * rewrite list_insert_alter. apply list_alter_ext; [|done].
        intros s' Hs'. by assert (s' = s) as -> by congruence.
      * rewrite list_insert_alter. apply list_alter_ext; [|done].
        intros c' Hc'. by assert (c' = c) as -> by congruence.
    + rewrite (getStudent_alter sm _ _ _ id) by done.
      unfold getStudent. rewrite Es. cbn. rewrite Hls. cbn.
      eexists. split; [done|]. fields. rewrite elem_of_erase_remove. naive_solver.
    + rewrite (getCourse_alter sm _ _ _ code) by done.
      unfold getCourse. rewrite Ec. cbn. rewrite Hlc. cbn.
      eexists. split; [done|]. fields. rewrite elem_of_erase_remove. naive_solver.
  - intros s c Hs Hc Hns Hnc.
    apply getStudent_Some in Hs as (sIdx & Es & Hls & _).
    apply getCourse_Some in Hc as (cIdx & Ec & Hlc & _).
    rewrite Es, Ec in Hcases. rewrite Hcases. f_equal.
    rewrite (alter_fixed _ _ _ s), (alter_fixed _ _ _ c); try done.
    + by destruct sm.
    + unfold Course_removeStudent. rewrite erase_remove_absent by done.
      by destruct c.
    + unfold Student_removeCourse. rewrite erase_remove_absent by done.
      by destruct s.
Qed.

Lemma unenroll_semantics_witness :
  removeStudentFromCourse "S009" "CSE101" dummy = (NotFound, dummy) ∧
  removeStudentFromCourse "S002" "CSE104" dummy = (Success, dummy) ∧
  (∃ s', getStudent (removeStudentFromCourse "S001" "CSE101" dummy).2 "S001"
           = Some s' ∧ "CSE101" ∉ enrolledCourses s').
Proof.
  split_and!.
  - apply (unenroll_semantics "S009" "CSE101" dummy). left. compute_done.
  - destruct (unenroll_semantics "S002" "CSE104" dummy) as (_ & _ & H).
    apply (H (mkStudent "Bob Smith" "S002" Postgraduate ["CSE101"])
             (mkCourse "Operating Systems" "CSE104" ["S004"; "S005"]));
      compute_done.
  - destruct (unenroll_semantics "S001" "CSE101" dummy) as (_ & H & _).
    destruct (H (mkStudent "Alice Johnson" "S001" Undergraduate ["CSE101"; "CSE102"])
                (mkCourse "Introduction to Programming" "CSE101"
                          ["S001"; "S002"; "S005"]))
      as (? & ? & _ & _ & _ & Hs & _); [compute_done..|].
    exact Hs.
Defined.

(** ** Operations that undo each other *)

Lemma erase_remove_push_back (x : string) (v : list string) :
  x ∉ v → erase_remove x (push_back_unique x v) = v.
Proof.
  intros Hx. unfold push_back_unique, erase_remove.
  rewrite bool_decide_eq_false_2 by done.
  rewrite filter_app, filter_cons, decide_False by (intros H; by apply H).
  rewrite filter_nil, app_nil_r. by apply erase_remove_absent.
Qed.

(** X5. In a registry reached through the operations, unenrolling right
    after a successful enrol gives back exactly the registry from before the
    enrol: both lists lose the entry that was appended and nothing else
    moves. *)
Theorem enroll_then_unenroll (ops : list Op) (id code : string) :
  (enrollStudentInCourse id code (run ops)).1 = Success →
  removeStudentFromCourse id code (enrollStudentInCourse id code (run ops)).2
    = (Success, run ops).
Proof.
  intros Hok. pose proof (run_consistent ops) as Hinv.
  pose proof (enrollStudentInCourse_cases id code (run ops)) as Hcases.
  destruct (getStudent (run ops) id) as [s|] eqn:Hs; [|by rewrite Hcases in Hok].
  destruct (getCourse (run ops) code) as [c|] eqn:Hc; [|by rewrite Hcases in Hok].
  case_bool_decide as Hlinked; [by rewrite Hcases in Hok|].
  destruct Hcases as (sIdx' & cIdx' & _ & _ & _).
  destruct (getStudent_Some _ _ _ Hs) as (sIdx & Es & Hls & Hid & Hsin).
  destruct (getCourse_Some _ _ _ Hc) as (cIdx & Ec & Hlc & Hcode & Hcin).
  assert (Hfresh : id ∉ enrolledStudentIDs c).
  { destruct Hinv as (_ & (_ & _ & He) & _).
    rewrite <- Hid, <- (He s c Hsin Hcin), Hcode. done. }
  unfold enrollStudentInCourse. rewrite Es, Ec, Hls.
  rewrite bool_decide_eq_false_2 by done. cbn [snd].
  pose proof (removeStudentFromCourse_cases id code
    (mkSM (alter (Student_addCourse code) sIdx (students (run ops)))
          (alter (Course_addStudent id) cIdx (courses (run ops))))) as Hun.
  unfold findStudentIndex, findCourseIndex in Hun. fields.
  rewrite (find_index_alter_key studentID) in Hun by done.
  rewrite (find_index_alter_key courseCode) in Hun by done.
  fold (findStudentIndex (run ops) id) in Hun.
  fold (findCourseIndex (run ops) code) in Hun.
  rewrite Es, Ec in Hun. rewrite Hun. f_equal.
  rewrite !list_alter_alter_eq.
  rewrite (alter_fixed _ _ _ s), (alter_fixed _ _ _ c); try done.
  - by destruct (run ops).
  - cbn. unfold Course_removeStudent, Course_addStudent. fields.
    rewrite erase_remove_push_back by done. by destruct c.
  - cbn. unfold Student_removeCourse, Student_addCourse. fields.
    rewrite erase_remove_push_back by done. by destruct s.
Qed.

Lemma enroll_then_unenroll_witness :
  removeStudentFromCourse "S003" "CSE101"
    (enrollStudentInCourse "S003" "CSE101" (run populateDummyData)).2
    = (Success, run populateDummyData).
Proof.
  apply (enroll_then_unenroll populateDummyData "S003" "CSE101"). compute_done.
Defined.

Lemma Course_removeStudent_fixed id (cs : list Course) :
  (∀ c, c ∈ cs → id ∉ enrolledStudentIDs c) →
  Course_removeStudent id <$> cs = cs.
Proof.
  intros Hfree. rewrite <- (list_fmap_id cs) at 2.
  apply list_fmap_ext. intros i c Hc. cbn.
  apply Course_removeStudent_purged, Hfree. by eapply list_elem_of_lookup_2.
Qed.

Lemma Student_removeCourse_fixed code (ss : list Student) :
  (∀ s, s ∈ ss → code ∉ enrolledCourses s) →
  Student_removeCourse code <$> ss = ss.
Proof.
  intros Hfree. rewrite <- (list_fmap_id ss) at 2.
  apply list_fmap_ext. intros i s Hs. cbn.
  apply Student_removeCourse_purged, Hfree. by eapply list_elem_of_lookup_2.
Qed.

(** X6. In a registry reached through the operations, removing a student
    right after adding it (fresh id, recognised type) gives back exactly the
    registry from before, and so does removing a course right after adding
    it: no roster or transcript can already hold the new key. *)
Theorem add_then_remove (ops : list Op) :
  (∀ nm id type,
     id ∉ studentID <$> students (run ops) →
     type = "Undergraduate" ∨ type = "Postgraduate" →
     removeStudent id (addStudent nm id type (run ops)).2 = (Success, run ops)) ∧
  (∀ cname code,
     code ∉ courseCode <$> courses (run ops) →
     removeCourse code (addCourse cname code (run ops)).2 = (Success, run ops)).
Proof.
  destruct (run_consistent ops) as (_ & (Hc & Hd & _) & _).
  split.
  - intros nm id type Hfresh Htype.
    assert (∃ k, getType k = type) as [k <-].
    { destruct Htype as [-> | ->]; [by exists Undergraduate | by exists Postgraduate]. }
    destruct (run ops) as [ss cs] eqn:Hrun. fields.
    rewrite addStudent_fresh by done. cbn [snd].
    unfold removeStudent, findStudentIndex. fields.
    pose proof (find_index_app_last studentID ss (mkStudent nm id k []) Hfresh)
      as Hfind. cbn [studentID] in Hfind. rewrite Hfind.
    f_equal. f_equal.
    + rewrite (delete_middle ss []). by rewrite app_nil_r.
    + apply Course_removeStudent_fixed. intros c Hcin Hid.
      destruct (Hd c id Hcin Hid) as (s & Hs & Hk).
      apply Hfresh. apply list_elem_of_fmap. eauto.
  - intros cname code Hfresh.
    destruct (run ops) as [ss cs] eqn:Hrun. fields.
    rewrite addCourse_fresh by done. cbn [snd].
    unfold removeCourse, findCourseIndex. fields.
    pose proof (find_index_app_last courseCode cs (mkCourse cname code []) Hfresh)
      as Hfind. cbn [courseCode] in Hfind. rewrite Hfind.
    f_equal. f_equal.
    + apply Student_removeCourse_fixed. intros s Hsin Hcode.
      destruct (Hc s code Hsin Hcode) as (c & Hcin & Hk).
      apply Hfresh. apply list_elem_of_fmap. eauto.
    + rewrite (delete_middle cs []). by rewrite app_nil_r.
Qed.

Lemma add_then_remove_witness :
  removeStudent "S006" (addStudent "Frank Moore" "S006" "Undergraduate" dummy).2
    = (Success, dummy) ∧
  removeCourse "CSE105" (addCourse "Networks" "CSE105" dummy).2 = (Success, dummy).
Proof.
  destruct (add_then_remove populateDummyData) as [Hs Hc]. split.
  - apply (Hs "Frank Moore" "S006" "Undergraduate"); [compute_done|by left].
  - apply (Hc "Networks" "CSE105"). compute_done.
Defined.

(** X7. Every registry reached from the empty one through the operations
    has pairwise distinct student ids, pairwise distinct course codes, and
    no repeated entry in any transcript or roster. *)
Theorem reachable_keys_unique (ops : list Op) :
  NoDup (studentID <$> students (run ops)) ∧
  NoDup (courseCode <$> courses (run ops)) ∧
  (∀ s, s ∈ students (run ops) → NoDup (enrolledCourses s)) ∧
  (∀ c, c ∈ courses (run ops) → NoDup (enrolledStudentIDs c)).
Proof.
  destruct (run_consistent ops) as ((Hns & Hnc) & _ & (Hts & Hrs)). done.
Qed.

(** * Further properties of the loader *)

(** ** What every load step keeps *)

(** A property kept by the four steps a load is made of is kept by
    [loadData], whatever the files hold. *)
Lemma loadData_preserves (P : StudentManagement → Prop) :
  (∀ nm id type sm, P sm → P (addStudent nm id type sm).2) →
  (∀ id code sm, P sm → P (load_student_code id sm code)) →
  (∀ cname code sm, P sm → P (addCourse cname code sm).2) →
  (∀ code id sm, P sm → P (load_course_id code sm id)) →
  ∀ fs sm, P sm → P (loadData fs sm).
Proof.
  intros Has Hsc Hac Hci.
  assert (Hfold : ∀ {X} (g : StudentManagement → X → StudentManagement) v,
            (∀ sm x, P sm → P (g sm x)) → ∀ sm, P sm → P (foldl g sm v)).
  { intros X g v Hg. induction v as [|x v IH]; intros sm Hsm; [done|].
    cbn [foldl]. by apply IH, Hg. }
  assert (Hsl : ∀ sm line, P sm → P (load_student_line sm line)).
  { intros sm line Hsm. unfold load_student_line. case_bool_decide; [done|].
    destruct (getline_field comma line) as [id r1].
    destruct (getline_field comma r1) as [nm r2].
    destruct (getline_field comma r2) as [type r3].
    destruct (getline_field nl r3) as [coursesStr r4].
    case_bool_decide; [by apply Has|].
    apply Hfold; [intros; by apply Hsc | by apply Has]. }
  assert (Hcl : ∀ sm line, P sm → P (load_course_line sm line)).
  { intros sm line Hsm. unfold load_course_line. case_bool_decide; [done|].
    destruct (getline_field comma line) as [code r1].
    destruct (getline_field comma r1) as [cname r2].
    destruct (getline_field nl r2) as [studentsStr r3].
    case_bool_decide; [by apply Hac|].
    apply Hfold; [intros; by apply Hci | by apply Hac]. }
  intros fs sm Hsm. unfold loadData, loadCoursesFromCSV, loadStudentsFromCSV.
  destruct (files fs !! courses_path), (files fs !! students_path);
    repeat (apply Hfold; [done|]); done.
Qed.

Lemma lists_nodup_Forall sm :
  lists_nodup sm ↔
    Forall (λ s, NoDup (enrolledCourses s)) (students sm) ∧
    Forall (λ c, NoDup (enrolledStudentIDs c)) (courses sm).
Proof. unfold lists_nodup. by rewrite !Forall_forall. Qed.

Lemma addStudent_tidy nm id type sm :
  unique_keys sm ∧ lists_nodup sm →
  unique_keys (addStudent nm id type sm).2 ∧ lists_nodup (addStudent nm id type sm).2.
Proof.
  rewrite !lists_nodup_Forall. intros ((Hns & Hnc) & Hts & Hrs).
  unfold addStudent. destruct (findStudentIndex sm id) eqn:E; [done|].
  apply findStudentIndex_None in E.
  assert (∀ k, unique_keys (mkSM (students sm ++ [mkStudent nm id k []]) (courses sm))
               ∧ Forall (λ s, NoDup (enrolledCourses s))
                        (students sm ++ [mkStudent nm id k []])
               ∧ Forall (λ c, NoDup (enrolledStudentIDs c)) (courses sm)) as Hk.
  { intros k. unfold unique_keys. fields. split_and!; [|done| |done].
    - rewrite fmap_app. apply NoDup_app. split_and!; [done | | apply NoDup_singleton].
      intros x Hx ->%list_elem_of_singleton. done.
    - apply Forall_app. split; [done|]. apply Forall_singleton, NoDup_nil_2. }
  repeat case_bool_decide; cbn [snd]; done || apply Hk.
Qed.

Lemma addCourse_tidy cname code sm :
  unique_keys sm ∧ lists_nodup sm →
  unique_keys (addCourse cname code sm).2 ∧ lists_nodup (addCourse cname code sm).2.
Proof.
  rewrite !lists_nodup_Forall. intros ((Hns & Hnc) & Hts & Hrs).
  unfold addCourse. destruct (findCourseIndex sm code) eqn:E; [done|].
  apply findCourseIndex_None in E. unfold unique_keys. fields.
  split_and!; [done| |done|].
  - rewrite fmap_app. apply NoDup_app. split_and!; [done | | apply NoDup_singleton].
    intros x Hx ->%list_elem_of_singleton. done.
  - apply Forall_app. split; [done|]. apply Forall_singleton, NoDup_nil_2.
Qed.

Lemma load_student_code_tidy id code sm :
  unique_keys sm ∧ lists_nodup sm →
  unique_keys (load_student_code id sm code) ∧ lists_nodup (load_student_code id sm code).
Proof.
  rewrite !lists_nodup_Forall. intros ((Hns & Hnc) & Hts & Hrs).
  unfold load_student_code. destruct (findStudentIndex sm id); [|done].
  unfold unique_keys. fields. split_and!; [|done| |done].
  - by rewrite (keys_alter studentID).
  - apply Forall_alter; [done|]. intros s _ Hs. fields.
    by apply NoDup_push_back_unique.
Qed.

Lemma load_course_id_tidy code id sm :
  unique_keys sm ∧ lists_nodup sm →
  unique_keys (load_course_id code sm id) ∧ lists_nodup (load_course_id code sm id).
Proof.
  rewrite !lists_nodup_Forall. intros ((Hns & Hnc) & Hts & Hrs).
  unfold load_course_id. destruct (findCourseIndex sm code); [|done].
  unfold unique_keys. fields. split_and!; [done| |done|].
  - by rewrite (keys_alter courseCode).
  - apply Forall_alter; [done|]. intros c _ Hc. fields.
    by apply NoDup_push_back_unique.
Qed.

(** X8. Whatever the two files hold (repeated ids, repeated codes within a
    row, rows for keys already in the registry), a load into a registry with
    distinct ids, distinct codes and duplicate-free lists gives a registry
    with distinct ids, distinct codes and duplicate-free lists. *)
Theorem loadData_keeps_keys_unique (fs : FileSystem) (sm : StudentManagement) :
  unique_keys sm → lists_nodup sm →
  unique_keys (loadData fs sm) ∧ lists_nodup (loadData fs sm).
Proof.
  intros Hu Hl.
  apply (loadData_preserves (λ sm, unique_keys sm ∧ lists_nodup sm));
    auto using addStudent_tidy, addCourse_tidy, load_student_code_tidy,
      load_course_id_tidy.
Qed.

Lemma loadData_keeps_keys_unique_witness :
  unique_keys (loadData dangling_fs dummy) ∧
  lists_nodup (loadData dangling_fs dummy).
Proof.
  apply (loadData_keeps_keys_unique dangling_fs dummy).
  - compute_done.
  - apply lists_nodup_Forall. compute_done.
Defined.

(** ** A load only adds *)

Lemma student_grows_refl s : student_grows s s.
Proof. by repeat split. Qed.

Lemma course_grows_refl c : course_grows c c.
Proof. by repeat split. Qed.

Lemma student_grows_trans s1 s2 s3 :
  student_grows s1 s2 → student_grows s2 s3 → student_grows s1 s3.
Proof.
  intros (? & ? & ? & ?) (? & ? & ? & ?).
  split_and!; try congruence. by etrans.
Qed.

Lemma course_grows_trans c1 c2 c3 :
  course_grows c1 c2 → course_grows c2 c3 → course_grows c1 c3.
Proof.
  intros (? & ? & ?) (? & ? & ?). split_and!; try congruence. by etrans.
Qed.

Lemma registry_extends_refl sm : registry_extends sm sm.
Proof.
  split; intros i x Hx; exists x;
    eauto using student_grows_refl, course_grows_refl.
Qed.

Lemma registry_extends_trans sm1 sm2 sm3 :
  registry_extends sm1 sm2 → registry_extends sm2 sm3 → registry_extends sm1 sm3.
Proof.
  intros [Hs12 Hc12] [Hs23 Hc23]. split.
  - intros i s Hs. destruct (Hs12 i s Hs) as (s2 & Hs2 & Hg12).
    destruct (Hs23 i s2 Hs2) as (s3 & Hs3 & Hg23).
    exists s3. eauto using student_grows_trans.
  - intros i c Hc. destruct (Hc12 i c Hc) as (c2 & Hc2 & Hg12).
    destruct (Hc23 i c2 Hc2) as (c3 & Hc3 & Hg23).
    exists c3. eauto using course_grows_trans.
Qed.

Lemma prefix_push_back_unique x v : v `prefix_of` push_back_unique x v.
Proof.
  unfold push_back_unique. case_bool_decide; [done|]. by apply prefix_app_r.
Qed.

Lemma addStudent_extends nm id type sm :
  registry_extends sm (addStudent nm id type sm).2.
Proof.
  unfold addStudent. destruct (findStudentIndex sm id);
    [apply registry_extends_refl|].
  assert (∀ new, registry_extends sm (mkSM (students sm ++ [new]) (courses sm))) as H.
  { intros new. split; fields.
    - intros i s Hs. exists s. split; [|apply student_grows_refl].
      rewrite lookup_app_l; [done|]. by eapply lookup_lt_Some.
    - intros i c Hc. exists c. split; [done | apply course_grows_refl]. }
  repeat case_bool_decide; cbn [snd]; auto using registry_extends_refl.
Qed.

Lemma addCourse_extends cname code sm :
  registry_extends sm (addCourse cname code sm).2.
Proof.
  unfold addCourse. destruct (findCourseIndex sm code);
    [apply registry_extends_refl|].
  split; fields.
  - intros i s Hs. exists s. split; [done | apply student_grows_refl].
  - intros i c Hc. exists c. split; [|apply course_grows_refl].
    rewrite lookup_app_l; [done|]. by eapply lookup_lt_Some.
Qed.

Lemma load_student_code_extends id code sm :
  registry_extends sm (load_student_code id sm code).
Proof.
  unfold load_student_code. destruct (findStudentIndex sm id) as [sIdx|];
    [|apply registry_extends_refl].
  split; fields.
  - intros i s Hs. rewrite list_lookup_alter. case_decide as Hi.
    + subst i. rewrite Hs. eexists. split; [done|].
      split_and!; try done. fields. apply prefix_push_back_unique.
    + exists s. split; [done | apply student_grows_refl].
  - intros i c Hc. exists c. split; [done | apply course_grows_refl].
Qed.

Lemma load_course_id_extends code id sm :
  registry_extends sm (load_course_id code sm id).
Proof.
  unfold load_course_id. destruct (findCourseIndex sm code) as [cIdx|];
    [|apply registry_extends_refl].
  split; fields.
  - intros i s Hs. exists s. split; [done | apply student_grows_refl].
  - intros i c Hc. rewrite list_lookup_alter. case_decide as Hi.
    + subst i. rewrite Hc. eexists. split; [done|].
      split_and!; try done. fields. apply prefix_push_back_unique.
    + exists c. split; [done | apply course_grows_refl].
Qed.

(** X9. A load only adds: whatever the files hold, every student and
    course of the registry is still at its position afterwards with the same
    key, name and kind, and its list of cross-references starts with the
    entries it had, in their order. No record is removed, renamed or
    reordered, and no entry is taken off a list. *)
Theorem loadData_only_extends (fs : FileSystem) (sm : StudentManagement) :
  registry_extends sm (loadData fs sm).
Proof.
  apply (loadData_preserves (registry_extends sm)).
  - intros. eapply registry_extends_trans; [done | apply addStudent_extends].
  - intros. eapply registry_extends_trans; [done | apply load_student_code_extends].
  - intros. eapply registry_extends_trans; [done | apply addCourse_extends].
  - intros. eapply registry_extends_trans; [done | apply load_course_id_extends].
  - apply registry_extends_refl.
Qed.

(** ** Rows for a key that is already there *)

Lemma insert_alter_same {A : Type} (f : A → A) (v : list A) (i : nat) (x : A) :
  <[i := x]> (alter f i v) = <[i := x]> v.
Proof.
  rewrite !list_insert_alter, list_alter_alter_eq. by apply list_alter_ext.
Qed.

Lemma load_student_codes_present sm id sIdx s codes :
  findStudentIndex sm id = Some sIdx → students sm !! sIdx = Some s →
  foldl (load_student_code id) sm codes =
    mkSM (<[sIdx := mkStudent (name s) (studentID s) (kind s)
                      (foldl (λ a x, push_back_unique x a) (enrolledCourses s) codes)]>
            (students sm))
         (courses sm).
Proof.
  revert sm s. induction codes as [|code codes IH]; intros sm s E Hs.
  - cbn [foldl]. rewrite list_insert_id; [by destruct sm|].
    rewrite Hs. by destruct s.
  - cbn [foldl].
    assert (load_student_code id sm code =
            mkSM (alter (Student_addCourse code) sIdx (students sm)) (courses sm))
      as Hstep by (unfold load_student_code; by rewrite E).
    rewrite (IH _ (Student_addCourse code s)).
    + rewrite Hstep. fields. by rewrite insert_alter_same.
    + rewrite Hstep. unfold findStudentIndex. fields.
      by rewrite (find_index_alter_key studentID).
    + rewrite Hstep. fields. by rewrite list_lookup_alter_eq, Hs.
Qed.

Lemma load_course_ids_present sm code cIdx c ids :
  findCourseIndex sm code = Some cIdx → courses sm !! cIdx = Some c →
  foldl (load_course_id code) sm ids =
    mkSM (students sm)
         (<[cIdx := mkCourse (courseName c) (courseCode c)
                      (foldl (λ a x, push_back_unique x a) (enrolledStudentIDs c) ids)]>
            (courses sm)).
Proof.
  revert sm c. induction ids as [|id ids IH]; intros sm c E Hc.
  - cbn [foldl]. rewrite list_insert_id; [by destruct sm|].
    rewrite Hc. by destruct c.
  - cbn [foldl].
    assert (load_course_id code sm id =
            mkSM (students sm) (alter (Course_addStudent id) cIdx (courses sm)))
      as Hstep by (unfold load_course_id; by rewrite E).
    rewrite (IH _ (Course_addStudent id c)).
    + rewrite Hstep. fields. by rewrite insert_alter_same.
    + rewrite Hstep. unfold findCourseIndex. fields.
      by rewrite (find_index_alter_key courseCode).
    + rewrite Hstep. fields. by rewrite list_lookup_alter_eq, Hc.
Qed.

Lemma load_student_line_present sm id nm type codes sIdx s :
  findStudentIndex sm id = Some sIdx → students sm !! sIdx = Some s →
  free_of comma id = true → free_of comma nm = true → free_of comma type = true →
  Forall (λ x, free_of semicolon x && free_of nl x = true) codes →
  last codes ≠ Some "" →
  load_student_line sm
    (id +:+ "," +:+ nm +:+ "," +:+ type +:+ "," +:+ join_semicolon codes) =
    mkSM (<[sIdx := mkStudent (name s) (studentID s) (kind s)
                      (foldl (λ a x, push_back_unique x a) (enrolledCourses s) codes)]>
            (students sm))
         (courses sm).
Proof.
  intros E Hs Hid Hnm Hty Hsafe Hlast. unfold load_student_line.
  change (id +:+ "," +:+ nm +:+ "," +:+ type +:+ "," +:+ join_semicolon codes)
    with (id +:+ String comma (nm +:+ String comma
            (type +:+ String comma (join_semicolon codes)))).
  rewrite bool_decide_eq_false_2 by apply append_delim_not_empty.
  rewrite !getline_field_delim by done.
  rewrite getline_field_end by by apply free_of_join_nl.
  assert ((addStudent nm id type sm).2 = sm) as ->
    by (unfold addStudent; by rewrite E).
  case_bool_decide as Hempty.
  - rewrite (join_semicolon_empty codes Hlast Hempty). cbn [foldl].
    rewrite list_insert_id; [by destruct sm|]. rewrite Hs. by destruct s.
  - assert (codes ≠ []) as Hne by (by intros ->).
    rewrite getline_all_join by done. by apply load_student_codes_present.
Qed.

Lemma load_course_line_present sm code cname ids cIdx c :
  findCourseIndex sm code = Some cIdx → courses sm !! cIdx = Some c →
  free_of comma code = true → free_of comma cname = true →
  Forall (λ x, free_of semicolon x && free_of nl x = true) ids →
  last ids ≠ Some "" →
  load_course_line sm (code +:+ "," +:+ cname +:+ "," +:+ join_semicolon ids) =
    mkSM (students sm)
         (<[cIdx := mkCourse (courseName c) (courseCode c)
                      (foldl (λ a x, push_back_unique x a) (enrolledStudentIDs c) ids)]>
            (courses sm)).
Proof.
  intros E Hc Hcode Hnm Hsafe Hlast. unfold load_course_line.
  change (code +:+ "," +:+ cname +:+ "," +:+ join_semicolon ids)
    with (code +:+ String comma (cname +:+ String comma (join_semicolon ids))).
  rewrite bool_decide_eq_false_2 by apply append_delim_not_empty.
  rewrite !getline_field_delim by done.
  rewrite getline_field_end by by apply free_of_join_nl.
  assert ((addCourse cname code sm).2 = sm) as ->
    by (unfold addCourse; by rewrite E).
  case_bool_decide as Hempty.
  - rewrite (join_semicolon_empty ids Hlast Hempty). cbn [foldl].
    rewrite list_insert_id; [by destruct sm|]. rewrite Hc. by destruct c.
  - assert (ids ≠ []) as Hne by (by intros ->).
    rewrite getline_all_join by done. by apply load_course_ids_present.
Qed.

(** X10. A students row whose id is already in the registry adds no record
    and ignores the row's name and type: the student found under that id
    keeps its name and kind, and the course codes of the row are put on its
    list, each unless already there, after the entries it had. Every other
    record is untouched. (The fields of the row are taken free of commas,
    the codes free of semicolons and line breaks, the last code not
    empty.) *)
Theorem load_duplicate_row_merges (sm : StudentManagement)
    (id nm type : string) (codes : list string) (s : Student) :
  getStudent sm id = Some s →
  free_of comma id = true → free_of comma nm = true → free_of comma type = true →
  Forall (λ x, free_of semicolon x && free_of nl x = true) codes →
  last codes ≠ Some "" →
  ∃ sIdx, students sm !! sIdx = Some s ∧
    load_student_line sm
      (id +:+ "," +:+ nm +:+ "," +:+ type +:+ "," +:+ join_semicolon codes) =
      mkSM (<[sIdx := mkStudent (name s) (studentID s) (kind s)
                        (foldl (λ a x, if bool_decide (x ∈ a) then a else a ++ [x])
                               (enrolledCourses s) codes)]>
              (students sm))
           (courses sm).
Proof.
  intros (sIdx & E & Hs & _)%getStudent_Some Hid Hnm Hty Hsafe Hlast.
  exists sIdx. split; [done|]. by apply load_student_line_present.
Qed.

Lemma load_duplicate_row_merges_witness :
  ∃ sIdx,
    load_student_line dummy
      ("S003" +:+ "," +:+ "Someone Else" +:+ "," +:+ "Postgraduate" +:+ ","
         +:+ join_semicolon ["CSE103"; "CSE104"]) =
      mkSM (<[sIdx := mkStudent "Charlie Brown" "S003" Undergraduate
                        ["CSE103"; "CSE104"]]> (students dummy))
           (courses dummy).
Proof.
  destruct (load_duplicate_row_merges dummy "S003" "Someone Else" "Postgraduate"
              ["CSE103"; "CSE104"]
              (mkStudent "Charlie Brown" "S003" Undergraduate ["CSE103"]))
    as (sIdx & _ & H); [compute_done..|].
  exists sIdx. exact H.
Defined.

(** ** Loading the saved files into the registry that wrote them *)

Lemma foldl_push_back_present (acc v : list string) :
  (∀ x, x ∈ v → x ∈ acc) →
  foldl (λ a x, push_back_unique x a) acc v = acc.
Proof.
  induction v as [|x v IH]; intros Hin; [done|].
  cbn [foldl]. unfold push_back_unique at 2.
  rewrite bool_decide_eq_true_2 by (apply Hin; by left).
  apply IH. intros y Hy. apply Hin. by right.
Qed.

Lemma load_student_line_own sm s :
  NoDup (studentID <$> students sm) → s ∈ students sm → student_safe s →
  load_student_line sm (student_body s) = sm.
Proof.
  intros Hnd [sIdx Hs]%list_elem_of_lookup_1
    ([Hidc _]%andb_true_iff & [Hnmc _]%andb_true_iff & Hsafe & Hlast & _).
  pose proof (find_index_key_unique studentID _ _ _ Hnd Hs) as E.
  unfold student_body.
  rewrite (load_student_line_present sm _ _ _ _ sIdx s);
    try done; [|apply getType_free; by left].
  rewrite foldl_push_back_present by done.
  rewrite list_insert_id; [by destruct sm|]. rewrite Hs. by destruct s.
Qed.

Lemma load_course_line_own sm c :
  NoDup (courseCode <$> courses sm) → c ∈ courses sm → course_safe c →
  load_course_line sm (course_body c) = sm.
Proof.
  intros Hnd [cIdx Hc]%list_elem_of_lookup_1
    ([Hidc _]%andb_true_iff & [Hnmc _]%andb_true_iff & Hsafe & Hlast & _).
  pose proof (find_index_key_unique courseCode _ _ _ Hnd Hc) as E.
  unfold course_body.
  rewrite (load_course_line_present sm _ _ _ cIdx c); try done.
  rewrite foldl_push_back_present by done.
  rewrite list_insert_id; [by destruct sm|]. rewrite Hc. by destruct c.
Qed.

Lemma foldl_fixed {X : Type} (g : StudentManagement → X → StudentManagement)
    (sm : StudentManagement) (v : list X) :
  (∀ x, x ∈ v → g sm x = sm) → foldl g sm v = sm.
Proof.
  induction v as [|x v IH]; intros Hg; [done|].
  cbn [foldl]. rewrite Hg by by left. apply IH. intros y Hy. apply Hg. by right.
Qed.

(** X11. Loading the files a registry has just saved into that same
    registry changes nothing, for the registries the format can carry:
    every row is turned down as a duplicate key and every cross-reference of
    the row is already on the record's list. *)
Theorem reload_saved_unchanged (sm : StudentManagement) (fs : FileSystem) :
  codec_safe sm →
  students_path ∉ unwritable fs → courses_path ∉ unwritable fs →
  loadData (saveData sm fs) sm = sm.
Proof.
  intros ((Hns & Hnc) & Hss & Hcs) Hs Hc.
  unfold loadData, loadStudentsFromCSV, loadCoursesFromCSV.
  rewrite saveData_writable by done. cbn [files].
  rewrite lookup_insert_eq.
  rewrite lookup_insert_ne by (symmetry; apply paths_distinct).
  rewrite lookup_insert_eq.
  rewrite students_csv_lines, courses_csv_lines by done.
  rewrite (foldl_fixed load_student_line).
  - apply foldl_fixed. intros line (c & -> & Hcin)%list_elem_of_fmap.
    apply load_course_line_own; [done..|].
    by apply (proj1 (Forall_forall _ _) Hcs).
  - intros line (s & -> & Hsin)%list_elem_of_fmap.
    apply load_student_line_own; [done..|].
    by apply (proj1 (Forall_forall _ _) Hss).
Qed.

Lemma reload_saved_unchanged_witness :
  loadData (saveData dummy fresh_fs) dummy = dummy.
Proof.
  apply (reload_saved_unchanged dummy fresh_fs); compute_done.
Defined.

(** ** The two loaders do not meet *)

Lemma addCourse_frame cname code ss cs :
  (addCourse cname code (mkSM ss cs)).2 =
    mkSM ss (courses (addCourse cname code (mkSM [] cs)).2).
Proof.
  unfold addCourse, findCourseIndex. cbn [students courses].
  by destruct (find_index (has_key courseCode code) cs).
Qed.

Lemma load_course_id_frame code ss cs id :
  load_course_id code (mkSM ss cs) id =
    mkSM ss (courses (load_course_id code (mkSM [] cs) id)).
Proof.
  unfold load_course_id, findCourseIndex. cbn [students courses].
  by destruct (find_index (has_key courseCode code) cs).
Qed.

Lemma foldl_frame_courses {X : Type}
    (g : StudentManagement → X → StudentManagement) (v : list X) :
  (∀ ss cs x, g (mkSM ss cs) x = mkSM ss (courses (g (mkSM [] cs) x))) →
  ∀ ss cs, foldl g (mkSM ss cs) v = mkSM ss (courses (foldl g (mkSM [] cs) v)).
Proof.
  intros Hg. induction v as [|x v IH]; intros ss cs; [done|].
  cbn [foldl]. rewrite (Hg ss cs x), IH. symmetry.
  rewrite (Hg [] cs x), (IH []). done.
Qed.

Lemma load_course_line_frame ss cs line :
  load_course_line (mkSM ss cs) line =
    mkSM ss (courses (load_course_line (mkSM [] cs) line)).
Proof.
  unfold load_course_line. case_bool_decide; [done|].
  destruct (getline_field comma line) as [code r1].
  destruct (getline_field comma r1) as [cname r2].
  destruct (getline_field nl r2) as [studentsStr r3].
  rewrite (addCourse_frame cname code ss cs), (addCourse_frame cname code [] cs).
  case_bool_decide; [done|].
  rewrite (foldl_frame_courses (load_course_id code)); [|apply load_course_id_frame].
  symmetry.
  rewrite (foldl_frame_courses (load_course_id code)); [|apply load_course_id_frame].
  done.
Qed.

Lemma loadStudentsFromCSV_frame fs ss cs :
  loadStudentsFromCSV fs (mkSM ss cs) =
    mkSM (students (loadStudentsFromCSV fs (mkSM ss []))) cs.
Proof.
  unfold loadStudentsFromCSV. destruct (files fs !! students_path); [|done].
  apply foldl_frame, load_student_line_frame.
Qed.

Lemma loadCoursesFromCSV_frame fs ss cs :
  loadCoursesFromCSV fs (mkSM ss cs) =
    mkSM ss (courses (loadCoursesFromCSV fs (mkSM [] cs))).
Proof.
  unfold loadCoursesFromCSV. destruct (files fs !! courses_path); [|done].
  apply foldl_frame_courses, load_course_line_frame.
Qed.

(** X12. The two loaders do not meet: [loadCoursesFromCSV] leaves the
    students as they are and builds the courses without looking at the
    students (so a roster entry is accepted whether or not a student has
    that id), [loadStudentsFromCSV] leaves the courses as they are, and
    running the two in the other order loads the same registry as
    [loadData]. *)
Theorem loaders_independent (fs : FileSystem) (sm : StudentManagement) :
  students (loadCoursesFromCSV fs sm) = students sm ∧
  courses (loadStudentsFromCSV fs sm) = courses sm ∧
  (∀ ss, courses (loadCoursesFromCSV fs (mkSM ss (courses sm)))
           = courses (loadCoursesFromCSV fs sm)) ∧
  loadStudentsFromCSV fs (loadCoursesFromCSV fs sm) = loadData fs sm.
Proof.
  destruct sm as [ss cs]. cbn [students courses]. split_and!.
  - by rewrite loadCoursesFromCSV_frame.
  - by rewrite loadStudentsFromCSV_frame.
  - intros ss'. rewrite (loadCoursesFromCSV_frame fs ss'). symmetry.
    by rewrite (loadCoursesFromCSV_frame fs ss).
  - unfold loadData.
    rewrite (loadCoursesFromCSV_frame fs ss), loadStudentsFromCSV_frame.
    symmetry. by rewrite loadStudentsFromCSV_frame, loadCoursesFromCSV_frame.
Qed.

(** * Further properties of reports, search and input checks *)

(** ** Student report *)

Lemma student_report_step_getCourse sm out code :
  student_report_step sm out code =
    match getCourse sm code with
    | Some c => out +:+ student_report_line c +:+ endl
    | None => out
    end.
Proof.
  unfold student_report_step, getCourse.
  destruct (findCourseIndex sm code) as [cIdx|]; cbn; [|done].
  by destruct (courses sm !! cIdx).
Qed.

Lemma student_report_loop sm out codes :
  foldl (student_report_step sm) out codes =
    out +:+ concat_strings
              ((λ c, student_report_line c +:+ endl) <$> omap (getCourse sm) codes).
Proof.
  revert out. induction codes as [|code codes IH]; intros out.
  - cbn. by rewrite append_nil_r.
  - cbn [foldl omap list_omap]. rewrite IH, student_report_step_getCourse.
    destruct (getCourse sm code) as [c|]; [|done].
    rewrite fmap_cons. cbn [concat_strings foldr].
    by rewrite !append_assoc.
Qed.

(** X13. Student report: for an id that is not in the registry the call
    reports [NotFound] and leaves the files as they were; when the report
    file cannot be opened it reports [IOFailure], again with no file
    touched; otherwise the file under the path derived from the id holds
    the header [StudentID,Name,Type], the student's own [id,name,type] row,
    an empty line, the header [CourseCode,CourseName], and one [code,name]
    line for each entry of the student's list that the registry resolves to
    a course, in list order; entries without a course are passed over. *)
Theorem student_report (id : string) (sm : StudentManagement)
    (fs : FileSystem) :
  (id ∉ studentID <$> students sm →
     generateReportForStudent id sm fs = (NotFound, fs)) ∧
  (∀ s, getStudent sm id = Some s → student_report_path id ∈ unwritable fs →
     generateReportForStudent id sm fs = (IOFailure, fs)) ∧
  (∀ s, getStudent sm id = Some s → student_report_path id ∉ unwritable fs →
     generateReportForStudent id sm fs =
       (Success,
        mkFS (<[student_report_path id :=
                  report_header +:+ endl
                    +:+ report_line s +:+ endl
                    +:+ endl
                    +:+ student_report_courses_header +:+ endl
                    +:+ concat_strings
                          ((λ c, student_report_line c +:+ endl)
                             <$> omap (getCourse sm) (enrolledCourses s))]>
                (files fs))
             (unwritable fs))).
Proof.
  unfold generateReportForStudent. split_and!.
  - intros Hn. apply findStudentIndex_None in Hn. by rewrite Hn.
  - intros s (sIdx & -> & -> & _)%getStudent_Some Hw.
    unfold write_file. by rewrite bool_decide_eq_true_2.
  - intros s (sIdx & -> & -> & _)%getStudent_Some Hw.
    unfold write_file. rewrite bool_decide_eq_false_2 by done.
    rewrite student_report_loop. unfold report_line.
    by rewrite !append_assoc.
Qed.

Lemma student_report_witness :
  generateReportForStudent "S009" dummy fresh_fs = (NotFound, fresh_fs) ∧
  files (generateReportForStudent "S001" dummy fresh_fs).2
    !! student_report_path "S001"
    = Some (report_header +:+ endl
              +:+ "S001,Alice Johnson,Undergraduate" +:+ endl +:+ endl
              +:+ student_report_courses_header +:+ endl
              +:+ "CSE101,Introduction to Programming" +:+ endl
              +:+ "CSE102,Data Structures" +:+ endl).
Proof.
  destruct (student_report "S009" dummy fresh_fs) as (H1 & _).
  destruct (student_report "S001" dummy fresh_fs) as (_ & _ & H2).
  split.
  - apply H1. compute_done.
  - rewrite (H2 (mkStudent "Alice Johnson" "S001" Undergraduate ["CSE101"; "CSE102"]));
      [|compute_done..].
    cbn [snd files]. rewrite lookup_insert_eq. f_equal.
Defined.

(** ** Reports of a registry reached through the operations *)

Lemma Forall2_omap_total {A B : Type} (f : A → option B) (P : A → B → Prop)
    (v : list A) :
  (∀ x, x ∈ v → ∃ y, f x = Some y ∧ P x y) → Forall2 P v (omap f v).
Proof.
  induction v as [|x v IH]; intros Hv; [constructor|].
  destruct (Hv x) as (y & Hy & HP); [by left|].
  cbn [omap list_omap]. rewrite Hy. constructor; [done|].
  apply IH. intros z Hz. apply Hv. by right.
Qed.

(** X14. In a registry reached through the operations no report line is
    lost: the course report has exactly one line per roster entry, each the
    row of the student with that id, who lists the course; and the student
    report has exactly one course line per entry of the student's list, each
    the row of the course with that code, whose roster holds the student. *)
Theorem reports_complete (ops : list Op) :
  (∀ code c, getCourse (run ops) code = Some c →
     Forall2 (λ id s, getStudent (run ops) id = Some s ∧ studentID s = id ∧
                      code ∈ enrolledCourses s)
             (enrolledStudentIDs c)
             (omap (getStudent (run ops)) (enrolledStudentIDs c))) ∧
  (∀ id s, getStudent (run ops) id = Some s →
     Forall2 (λ code c, getCourse (run ops) code = Some c ∧ courseCode c = code ∧
                        id ∈ enrolledStudentIDs c)
             (enrolledCourses s)
             (omap (getCourse (run ops)) (enrolledCourses s))).
Proof.
  destruct (run_consistent ops) as (_ & (Hc & Hd & He) & _). split.
  - intros code c (_ & _ & _ & Hcode & Hcin)%getCourse_Some.
    apply Forall2_omap_total. intros id Hid.
    destruct (Hd c id Hcin Hid) as (s0 & Hs0 & Hk0).
    assert (is_Some (getStudent (run ops) id)) as [s Hs].
    { apply getStudent_is_Some, list_elem_of_fmap. eauto. }
    exists s. destruct (getStudent_Some _ _ _ Hs) as (_ & _ & _ & Hk & Hsin).
    split_and!; [done..|]. rewrite <- Hcode. apply (He s c Hsin Hcin).
    by rewrite Hk.
  - intros id s (_ & _ & _ & Hid & Hsin)%getStudent_Some.
    apply Forall2_omap_total. intros code Hcode.
    destruct (Hc s code Hsin Hcode) as (c0 & Hc0 & Hk0).
    assert (is_Some (getCourse (run ops) code)) as [c Hcc].
    { apply getCourse_is_Some, list_elem_of_fmap. eauto. }
    exists c. destruct (getCourse_Some _ _ _ Hcc) as (_ & _ & _ & Hk & Hcin).
    split_and!; [done..|]. rewrite <- Hid. apply (He s c Hsin Hcin).
    by rewrite Hk.
Qed.

Lemma reports_complete_witness :
  length ["S001"; "S002"; "S005"]
    = length (omap (getStudent (run populateDummyData)) ["S001"; "S002"; "S005"]).
Proof.
  destruct (reports_complete populateDummyData) as [H _].
  apply (Forall2_length _ _ _
           (H "CSE101" (mkCourse "Introduction to Programming" "CSE101"
                          ["S001"; "S002"; "S005"]) ltac:(compute_done))).
Defined.

(** ** Search and listings *)

Lemma is_substring_refl s : is_substring s s.
Proof. exists "", "". by rewrite append_nil_l, append_nil_r. Qed.

Lemma is_substring_empty s : is_substring "" s.
Proof. exists "", s. done. Qed.

Lemma search_output kw sm :
  searchStudent kw sm =
    search_banner kw
      +:+ concat_strings
            (student_line <$> filter (λ s, keyword_matchesb kw s) (students sm))
      +:+ (if bool_decide (filter (λ s, keyword_matchesb kw s) (students sm) = [])
           then no_match_line else "").
Proof.
  unfold searchStudent. rewrite search_loop. cbn [orb].
  destruct (filter _ (students sm)) as [|h hits].
  - cbn. by rewrite append_nil_r.
  - rewrite bool_decide_eq_true_2 by done. rewrite bool_decide_eq_false_2 by done.
    by rewrite append_nil_r.
Qed.

Lemma is_substring_concat piece pieces :
  piece ∈ pieces → is_substring piece (concat_strings pieces).
Proof.
  induction pieces as [|p pieces IH]; intros Hin; [by apply not_elem_of_nil in Hin|].
  cbn [concat_strings foldr]. apply elem_of_cons in Hin as [-> | Hin].
  - exists "", (concat_strings pieces). done.
  - destruct (IH Hin) as (pre & post & Heq). exists (p +:+ pre), post.
    unfold concat_strings in Heq. by rewrite Heq, append_assoc.
Qed.

(** X15. A search always finds a student by what is stored in the record:
    when the keyword is the student's full name, its full id, one of its
    enrolled course codes, or empty, the student is among the hits, the
    printed text holds the student's line, and the "No matching student
    found." notice is not printed. *)
Theorem search_finds_stored (kw : string) (sm : StudentManagement) (s : Student) :
  s ∈ students sm →
  kw = "" ∨ kw = name s ∨ kw = studentID s ∨ kw ∈ enrolledCourses s →
  s ∈ filter (λ s, keyword_matchesb kw s) (students sm) ∧
  searchStudent kw sm =
    search_banner kw
      +:+ concat_strings
            (student_line <$> filter (λ s, keyword_matchesb kw s) (students sm)) ∧
  is_substring (student_line s) (searchStudent kw sm).
Proof.
  intros Hin Hkw.
  assert (keyword_matchesb kw s = true) as Hm.
  { apply keyword_matchesb_spec. unfold keyword_matches.
    destruct Hkw as [-> | [-> | [-> | Hc]]];
      eauto 6 using is_substring_empty, is_substring_refl. }
  assert (s ∈ filter (λ s, keyword_matchesb kw s) (students sm)) as Hhit.
  { apply list_elem_of_filter. split; [by apply Is_true_true|done]. }
  assert (searchStudent kw sm =
          search_banner kw +:+ concat_strings
            (student_line <$> filter (λ s, keyword_matchesb kw s) (students sm)))
    as Hout.
  { rewrite search_output. rewrite bool_decide_eq_false_2.
    - by rewrite append_nil_r.
    - intros Hnil. rewrite Hnil in Hhit. by apply not_elem_of_nil in Hhit. }
  split_and!; [done..|]. rewrite Hout.
  destruct (is_substring_concat (student_line s)
              (student_line <$> filter (λ s, keyword_matchesb kw s) (students sm)))
    as (pre & post & Heq).
  { apply list_elem_of_fmap. eauto. }
  exists (search_banner kw +:+ pre), post. by rewrite Heq, append_assoc.
Qed.

Lemma search_finds_stored_witness :
  is_substring "Name: Eve Davis, ID: S005, Type: Postgraduate"
               (searchStudent "CSE104" dummy).
Proof.
  destruct (search_finds_stored "CSE104" dummy
              (mkStudent "Eve Davis" "S005" Postgraduate ["CSE101"; "CSE102"; "CSE104"]))
    as (_ & _ & (pre & post & Heq)); [compute_done | |].
  - right. right. right. compute_done.
  - exists pre, (endl +:+ post). rewrite Heq. unfold student_line. cbn [name studentID kind].
    by rewrite !append_assoc.
Defined.

Lemma listing_loop {A : Type} (line : A → string) (out : string) (v : list A) :
  foldl (λ out a, out +:+ line a) out v = out +:+ concat_strings (line <$> v).
Proof.
  revert out. induction v as [|a v IH]; intros out.
  - cbn. by rewrite append_nil_r.
  - cbn [foldl]. rewrite IH, fmap_cons. cbn [concat_strings foldr].
    by rewrite append_assoc.
Qed.

Lemma filter_all {A : Type} (P : A → Prop) `{∀ x, Decision (P x)} (v : list A) :
  (∀ x, x ∈ v → P x) → filter P v = v.
Proof.
  induction v as [|x v IH]; intros Hall; [done|].
  rewrite filter_cons, decide_True by (apply Hall; by left).
  f_equal. apply IH. intros y Hy. apply Hall. by right.
Qed.

(** X16. Listings: [listStudents] prints its banner and then one line per
    student, in collection order, and [listCourses] does the same for the
    courses. A search with the empty keyword prints, after its own banner,
    exactly the lines of [listStudents], followed by the no-match notice
    when the registry has no student. *)
Theorem listings (sm : StudentManagement) :
  listStudents sm =
    list_students_banner +:+ concat_strings (student_line <$> students sm) ∧
  listCourses sm =
    list_courses_banner +:+ concat_strings (course_line <$> courses sm) ∧
  searchStudent "" sm =
    search_banner "" +:+ concat_strings (student_line <$> students sm)
      +:+ (if bool_decide (students sm = []) then no_match_line else "").
Proof.
  split_and!.
  - apply listing_loop.
  - apply listing_loop.
  - rewrite search_output. rewrite filter_all; [done|].
    intros s _. apply Is_true_true, keyword_matchesb_spec.
    left. apply is_substring_empty.
Qed.

(** ** The student id check *)

Lemma isdigit_not_delimiter d c :
  isdigit d = true → c = comma ∨ c = semicolon ∨ c = nl → Ascii.eqb d c = false.
Proof.
  intros Hd Hc. destruct (Ascii.eqb_spec d c) as [->|]; [|done].
  by destruct Hc as [-> | [-> | ->]].
Qed.

(** X17. The id check of the menu accepts exactly the four-character
    strings made of [S] and three decimal digits. An accepted id is not
    empty and holds no comma, semicolon or line break, so it passes through
    the students file as a key and through a roster as an entry
    unchanged. *)
Theorem isValidStudentID_spec (id : string) :
  (isValidStudentID id = true ↔
     ∃ d1 d2 d3, id = String "S" (String d1 (String d2 (String d3 ""))) ∧
                 isdigit d1 = true ∧ isdigit d2 = true ∧ isdigit d3 = true) ∧
  (isValidStudentID id = true →
     id ≠ "" ∧ field_safe id ∧ free_of semicolon id && free_of nl id = true).
Proof.
  assert (Hshape : isValidStudentID id = true →
     ∃ d1 d2 d3, id = String "S" (String d1 (String d2 (String d3 ""))) ∧
                 isdigit d1 = true ∧ isdigit d2 = true ∧ isdigit d3 = true).
  { destruct id as [|c [|d1 [|d2 [|d3 [|x r]]]]];
      try (cbv beta iota zeta delta -[isdigit Ascii.eqb]; discriminate).
    unfold isValidStudentID. rewrite !length_cons. cbn [String.length Nat.eqb negb].
    destruct (Ascii.eqb_spec c "S") as [->|]; cbn [negb all_digits]; [|done].
    destruct (isdigit d1) eqn:E1; cbn [negb]; [|done].
    destruct (isdigit d2) eqn:E2; cbn [negb]; [|done].
    destruct (isdigit d3) eqn:E3; cbn [negb]; [|done].
    intros _. by exists d1, d2, d3. }
  split; [split; [done|]|].
  - intros (d1 & d2 & d3 & -> & H1 & H2 & H3).
    unfold isValidStudentID. rewrite !length_cons.
    cbn [String.length Nat.eqb negb all_digits].
    by rewrite Ascii.eqb_refl, H1, H2, H3.
  - intros (d1 & d2 & d3 & -> & H1 & H2 & H3)%Hshape.
    split; [done|]. unfold field_safe. cbn [free_of].
    rewrite !(isdigit_not_delimiter d1), !(isdigit_not_delimiter d2),
      !(isdigit_not_delimiter d3); auto.
Qed.

Lemma isValidStudentID_spec_witness :
  isValidStudentID "S001" = true ∧ field_safe "S001" ∧
  isValidStudentID "S01" = false ∧ isValidStudentID "A001" = false ∧
  isValidStudentID "S0a1" = false.
Proof.
  destruct (isValidStudentID_spec "S001") as [_ H].
  assert (isValidStudentID "S001" = true) as Hv by reflexivity.
  destruct (H Hv) as (_ & Hsafe & _).
  exact (conj Hv (conj Hsafe (conj eq_refl (conj eq_refl eq_refl)))).
Defined.

(** ** Trimming and the cancellation word *)

Lemma skip_space_split s :
  ∃ front, s = front +:+ skip_space s ∧ all_space front = true.
Proof.
  induction s as [|c s (front & Heq & Hsp)]; [by exists ""|].
  cbn [skip_space]. destruct (isspace c) eqn:E.
  - exists (String c front). rewrite append_cons, <- Heq. cbn [all_space].
    by rewrite E, Hsp.
  - by exists "".
Qed.

Lemma skip_space_starts_clean s : starts_clean (skip_space s).
Proof.
  induction s as [|c s IH]; [done|]. cbn [skip_space].
  by destruct (isspace c) eqn:E.
Qed.

Lemma strip_back_split s :
  ∃ back, s = strip_back s +:+ back ∧ all_space back = true.
Proof.
  induction s as [|c s (back & Heq & Hsp)]; [by exists ""|].
  cbn [strip_back]. destruct (strip_back s) as [|k kept] eqn:Ek.
  - destruct (isspace c) eqn:E.
    + exists (String c back). rewrite append_nil_l in *. split; [by rewrite Heq|].
      cbn [all_space]. by rewrite E, Hsp.
    + exists back. rewrite !append_cons, append_nil_l in *.
      split; [by rewrite Heq at 1|done].
  - exists back. rewrite append_cons. split; [by rewrite Heq at 1|done].
Qed.

Lemma strip_back_ends_clean s : ends_clean (strip_back s).
Proof.
  unfold ends_clean. induction s as [|c s IH]; intros front x Heq.
  - by destruct front.
  - cbn [strip_back] in Heq. destruct (strip_back s) as [|k kept] eqn:Ek.
    + destruct (isspace c) eqn:E; [by destruct front|].
      destruct front as [|f [|f' front]]; [|done..].
      rewrite append_nil_l in Heq. congruence.
    + destruct front as [|f front].
      * rewrite append_nil_l in Heq. done.
      * rewrite append_cons in Heq. injection Heq as _ Heq. by eapply IH.
Qed.

Lemma strip_back_clean_fixed s : ends_clean s → strip_back s = s.
Proof.
  induction s as [|c s IH]; intros Hclean; [done|].
  cbn [strip_back]. rewrite IH.
  - destruct s; [|done]. by rewrite (Hclean "" c).
  - intros front x ->. apply (Hclean (String c front) x). by rewrite append_cons.
Qed.

Lemma ends_clean_cons c t :
  isspace c = false → ends_clean t → ends_clean (String c t).
Proof.
  intros Hc Ht front x Heq. destruct front as [|f front].
  - rewrite append_nil_l in Heq. congruence.
  - rewrite append_cons in Heq. injection Heq as _ Heq. by eapply Ht.
Qed.

(** X18. [trim] of a string that is not empty returns a part of it: what is
    cut off in front and behind is whitespace only, the result neither
    starts nor ends with whitespace, it is empty exactly when the whole
    string is whitespace, and trimming a result that is not empty returns
    it unchanged. *)
Theorem trim_spec (s : string) :
  s ≠ "" →
  ∃ t front back,
    trim s = Some t ∧ s = front +:+ t +:+ back ∧
    all_space front = true ∧ all_space back = true ∧
    starts_clean t ∧ ends_clean t ∧
    (t = "" ↔ all_space s = true) ∧
    (t ≠ "" → trim t = Some t).
Proof.
  intros Hne. destruct s as [|c0 s0]; [done|]. clear Hne.
  set (s := String c0 s0).
  destruct (skip_space_split s) as (front & Hfront & Hsp).
  pose proof (skip_space_starts_clean s) as Hstart.
  assert (Hall : ∀ a b, all_space (a +:+ b) = all_space a && all_space b).
  { intros a b. induction a as [|x a IH]; [done|].
    rewrite append_cons. cbn [all_space]. by rewrite IH, andb_assoc. }
  unfold trim. fold s. destruct (skip_space s) as [|c rest] eqn:Es.
  - exists "", front, "". rewrite append_nil_l in *. rewrite append_nil_r in Hfront.
    split_and!; try done.
    + by rewrite append_nil_r.
    + by intros front' x H; destruct front'.
    + split; [intros _|done]. by rewrite Hfront.
  - destruct (strip_back_split rest) as (back & Hback & Hbsp).
    cbn in Hstart.
    pose proof (ends_clean_cons c _ Hstart (strip_back_ends_clean rest)) as Hend.
    exists (String c (strip_back rest)), front, back.
    split_and!; try done.
    + rewrite Hfront. f_equal. rewrite append_cons. by rewrite <- Hback.
    + split; [done|]. rewrite Hfront, Hall. cbn [all_space].
      rewrite Hstart. by rewrite andb_false_r.
    + intros _. cbn [skip_space]. rewrite Hstart.
      rewrite strip_back_clean_fixed; [done|]. apply strip_back_ends_clean.
Qed.

Lemma trim_spec_witness :
  trim "  Alice Johnson  " = Some "Alice Johnson" ∧
  (∃ t front back,
     trim "   " = Some t ∧ "   " = front +:+ t +:+ back ∧ (t = "" ↔ all_space "   " = true)).
Proof.
  split; [reflexivity|].
  destruct (trim_spec "   ") as (t & front & back & H1 & H2 & _ & _ & _ & _ & H3 & _);
    [done|].
  exists t, front, back. exact (conj H1 (conj H2 H3)).
Defined.

Lemma tolower_idem c : tolower (tolower c) = tolower c.
Proof. by destruct c as [[] [] [] [] [] [] [] []]. Qed.

Lemma tolower_esc c :
  (tolower c = "e"%char → c = "e"%char ∨ c = "E"%char) ∧
  (tolower c = "s"%char → c = "s"%char ∨ c = "S"%char) ∧
  (tolower c = "c"%char → c = "c"%char ∨ c = "C"%char).
Proof.
  destruct c as [[] [] [] [] [] [] [] []];
    (split_and!; intros H; first [discriminate H | by left | by right]).
Qed.

(** X19. The cancellation test of the prompts, [toLower(input) == "esc"],
    holds for exactly the eight spellings of the word in upper and lower
    case; [toLower] keeps the length of its argument and applying it twice
    is the same as applying it once. *)
Theorem is_cancel_spec (input : string) :
  (is_cancel input = true ↔
     ∃ c1 c2 c3, input = String c1 (String c2 (String c3 "")) ∧
       (c1 = "e"%char ∨ c1 = "E"%char) ∧ (c2 = "s"%char ∨ c2 = "S"%char) ∧
       (c3 = "c"%char ∨ c3 = "C"%char)) ∧
  String.length (toLower input) = String.length input ∧
  toLower (toLower input) = toLower input.
Proof.
  split_and!.
  - unfold is_cancel. rewrite bool_decide_eq_true. split.
    + destruct input as [|c1 [|c2 [|c3 [|c4 r]]]]; try done.
      cbn [toLower]. intros [= H1 H2 H3]. exists c1, c2, c3. split; [done|].
      split_and!; by apply tolower_esc.
    + intros (c1 & c2 & c3 & -> & [-> | ->] & [-> | ->] & [-> | ->]); done.
  - induction input as [|c r IH]; [done|]. cbn [toLower].
    by rewrite !length_cons, IH.
  - induction input as [|c r IH]; [done|]. cbn [toLower].
    by rewrite tolower_idem, IH.
Qed.

(** * Further properties of the files *)

(** ** The list field, written and read back *)

Lemma getline_all_join_trailing v :
  Forall (λ x, free_of semicolon x && free_of nl x = true) v → v ≠ [] →
  getline_all semicolon (join_semicolon (v ++ [""])) = v.
Proof.
  induction v as [|x v IH]; intros Hsafe Hne; [done|].
  apply Forall_cons in Hsafe as [[Hx _]%andb_true_iff Hsafe].
  destruct v as [|y v].
  - cbn [app join_semicolon]. rewrite append_cons, append_nil_l.
    rewrite getline_all_delim by done. done.
  - change ((x :: y :: v) ++ [""]) with (x :: ((y :: v) ++ [""])).
    change (join_semicolon (x :: (y :: v) ++ [""]))
      with (x +:+ ";" +:+ join_semicolon ((y :: v) ++ [""])).
    rewrite append_cons, append_nil_l.
    rewrite getline_all_delim by done. f_equal. by apply IH.
Qed.

(** X20. The list field of a row, written with [;] between the entries and
    split again by the loader: a list that is not empty, whose entries hold
    no semicolon and whose last entry is not empty, is read back as it was;
    an empty entry at the end is lost; and a list holding nothing but one
    empty entry is read back as the empty list, like the empty list
    itself. *)
Theorem list_field_round_trip (v : list string) :
  Forall (λ x, free_of semicolon x && free_of nl x = true) v →
  (v ≠ [] → last v ≠ Some "" →
     getline_all semicolon (join_semicolon v) = v) ∧
  (v ≠ [] → getline_all semicolon (join_semicolon (v ++ [""])) = v) ∧
  getline_all semicolon (join_semicolon []) = [] ∧
  getline_all semicolon (join_semicolon [""]) = [].
Proof.
  intros Hsafe. split_and!; [| |done..].
  - intros Hne Hlast. by apply getline_all_join.
  - intros Hne. by apply getline_all_join_trailing.
Qed.

Lemma list_field_round_trip_witness :
  getline_all semicolon (join_semicolon ["CSE101"; "CSE102"]) = ["CSE101"; "CSE102"] ∧
  getline_all semicolon (join_semicolon (["CSE101"; "CSE102"] ++ [""]))
    = ["CSE101"; "CSE102"].
Proof.
  assert (Forall (λ x, free_of semicolon x && free_of nl x = true)
                 ["CSE101"; "CSE102"]) as Hsafe by compute_done.
  destruct (list_field_round_trip ["CSE101"; "CSE102"] Hsafe) as (H1 & H2 & _).
  split; [apply H1; compute_done | apply H2; compute_done].
Defined.

(** ** What a save or a report touches *)




